(** * starfish.pipeline.registration: the [Registration] pipeline component

    A shallow embedding of [starfish/pipeline/registration/__init__.py]:
    the discovery of registration algorithms, the construction of the
    [register] command group and the dispatcher [Registration._cli].

    Python objects that are mutated through references (argparse parsers)
    live in a store indexed by locations; exceptions are results of a
    state-and-exception monad in which the state survives a raise, as in
    Python, where nothing is rolled back. *)

From Stdlib Require Import ZArith Ascii String List.
From stdpp Require Import base option list gmap strings fin_maps.
Import ListNotations.

(** ** Python values and exceptions *)

(** Identity of a Python class object. *)
Abbreviation ClassId := nat.

(** Location of an [argparse.ArgumentParser] object in the store. *)
Abbreviation loc := nat.

(** The values held by namespaces and parser defaults. *)
Inductive Value :=
  | VNone
  | VStr (s : string)
  | VClass (c : ClassId)
  | VCli.   (* the bound method [Registration._cli] *)

Inductive exn :=
  | AttributeError (attr : string)
  | SystemExit (status : Z)
  | ArgumentError (msg : string)
  | ConfigurationError (name : string)
  | Exception (tag : string).   (* whatever a collaborator raises *)

Inductive result (A : Type) :=
  | Ret (a : A)
  | Raise (e : exn).
Arguments Ret {A} a.
Arguments Raise {A} e.

(** The exit status of the interpreter when the command body ends with
    this result: 0 on normal return, the status of a [SystemExit], 1 for
    any other uncaught exception. *)
Definition process_status {A} (r : result A) : Z :=
  match r with
  | Ret _ => 0
  | Raise (SystemExit n) => n
  | Raise _ => 1
  end.

Definition is_None (v : Value) : bool :=
  match v with VNone => true | _ => false end.

(** ** argparse objects *)

(** The callables passed as [type=]. *)
Inductive ArgType :=
  | TyStr
  | FsExistsType.

Inductive ActionKind :=
  | Store    (* takes one value and stores it under [dest] *)
  | Help.    (* [-h]: prints the help and exits *)

(** An optional argument of a parser. *)
Record Action := mkAction {
  kind : ActionKind;
  option_strings : list string;
  dest : string;
  type_ : ArgType;
  required : bool
}.

(** The action made by [add_subparsers]: the field that receives the
    selection and the dictionary of sub-commands. *)
Record SubParsersAction := mkSubParsers {
  sp_dest : string;
  _name_parser_map : gmap string loc
}.

Record ArgumentParser := mkParser {
  prog : string;
  _actions : list Action;
  _defaults : gmap string Value;
  _subparsers : option SubParsersAction
}.

(** A parsed-argument record, [argparse.Namespace]. *)
Abbreviation Namespace := (gmap string Value).

(** The registry: algorithm name to class, in insertion order. *)
Abbreviation Registry := (list (string * ClassId)).

(** A class statement: the class and its direct bases, and whether the
    class still has abstract methods. *)
Record ClassDef := mkClass {
  cid : ClassId;
  bases : list ClassId;
  is_abstract : bool
}.

(** ** The collaborators *)

(** The capability contract of [RegistrationAlgorithmBase]: three class
    methods, indexed by the class, and the instance method [register]. *)
Class AlgorithmContract (World Instance StackRef : Type) := {
  get_algorithm_name : ClassId -> string;
  add_arguments : ClassId -> ArgumentParser -> result unit * ArgumentParser;
  from_cli_args : ClassId -> Namespace -> World -> result Instance * World;
  register : Instance -> StackRef -> World -> result (option StackRef) * World
}.

(** [starfish.io.Stack]: the constructor and the two methods used. *)
Class StackContract (World StackRef : Type) := {
  Stack_new : World -> result StackRef * World;
  Stack_read : StackRef -> Value -> World -> result unit * World;
  Stack_write : StackRef -> Value -> World -> result unit * World
}.

(** [os.path.exists]. *)
Class FileSystem (World : Type) := {
  path_exists : World -> string -> bool
}.

Section Model.

Context {World Instance StackRef : Type}.
Context `{!AlgorithmContract World Instance StackRef}.
Context `{!StackContract World StackRef}.
Context `{!FileSystem World}.

(** ** Observable events, in the order in which they happen *)

Inductive Event :=
  | EvPrintHelp (g : loc)
  | EvExit (g : loc) (status : Z)
  | EvConstruct (c : ClassId)
  | EvPrint (s : string)
  | EvStackNew
  | EvRead (s : StackRef) (path : Value)
  | EvRegister (i : Instance) (s : StackRef)
  | EvWrite (s : StackRef) (path : Value).

(** The four steps of the dispatcher's sequence. *)
Inductive Step := Construct | Load | Execute | Persist.

Definition step_of (e : Event) : option Step :=
  match e with
  | EvConstruct _ => Some Construct
  | EvRead _ _ => Some Load
  | EvRegister _ _ => Some Execute
  | EvWrite _ _ => Some Persist
  | _ => None
  end.

Definition steps (t : list Event) : list Step := omap step_of t.

(** ** Interpreter state *)

Record State := mkState {
  world : World;                        (* what the collaborators act on *)
  parsers : list ArgumentParser;        (* store of parser objects *)
  classes : list ClassDef;              (* classes, in definition order *)
  register_group : option loc;          (* class attribute, unset at first *)
  _algorithm_to_class_map : option Registry;  (* class attribute *)
  trace : list Event                    (* the events so far; never read *)
}.

Definition set_world (w : World) (st : State) : State :=
  mkState w (parsers st) (classes st) (register_group st)
          (_algorithm_to_class_map st) (trace st).
Definition set_parsers (h : list ArgumentParser) (st : State) : State :=
  mkState (world st) h (classes st) (register_group st)
          (_algorithm_to_class_map st) (trace st).
Definition set_register_group (g : loc) (st : State) : State :=
  mkState (world st) (parsers st) (classes st) (Some g)
          (_algorithm_to_class_map st) (trace st).
Definition set_algorithm_map (m : Registry) (st : State) : State :=
  mkState (world st) (parsers st) (classes st) (register_group st)
          (Some m) (trace st).
Definition log (e : Event) (st : State) : State :=
  mkState (world st) (parsers st) (classes st) (register_group st)
          (_algorithm_to_class_map st) (trace st ++ [e]).

(** The state [st] once the events [t] have happened and the world has
    become [w]; nothing else has changed. *)
Definition after (t : list Event) (w : World) (st : State) : State :=
  mkState w (parsers st) (classes st) (register_group st)
          (_algorithm_to_class_map st) (trace st ++ t).

(** ** The monad *)

Definition M (A : Type) : Type := State -> result A * State.

Definition ret {A} (a : A) : M A := fun st => (Ret a, st).
Definition raise {A} (e : exn) : M A := fun st => (Raise e, st).
Definition bind {A B} (m : M A) (k : A -> M B) : M B :=
  fun st =>
    match m st with
    | (Ret a, st') => k a st'
    | (Raise e, st') => (Raise e, st')
    end.

Notation "'let*' x ':=' m 'in' k" := (bind m (fun x => k))
  (at level 10, x name, m at level 100, k at level 200).
Notation "m '>>' k" := (bind m (fun _ => k))
  (at level 90, right associativity).

(** A call into a collaborator: the event is logged when the call is
    made, and the collaborator acts on the world. *)
Definition call {A} (ev : Event) (f : World -> result A * World) : M A :=
  fun st =>
    let '(r, w) := f (world st) in
    (r, set_world w (log ev st)).

(** [getattr(ns, name)]. *)
Definition getattr (ns : Namespace) (name : string) : M Value :=
  match ns !! name with
  | Some v => ret v
  | None => raise (AttributeError name)
  end.

(** [print(s)]. *)
Definition print (s : string) : M unit :=
  fun st => (Ret tt, log (EvPrint s) st).

(** ** The dispatcher *)

(** [cls.register_group]: the attribute exists once it was assigned. *)
Definition get_register_group : M loc :=
  fun st =>
    match register_group st with
    | Some g => (Ret g, st)
    | None => (Raise (AttributeError "register_group"), st)
    end.

(** [ArgumentParser.print_help()]. *)
Definition ArgumentParser_print_help (g : loc) : M unit :=
  fun st => (Ret tt, log (EvPrintHelp g) st).

(** [ArgumentParser.exit(status)]: [sys.exit(status)]. *)
Definition ArgumentParser_exit (g : loc) (status : Z) : M unit :=
  fun st => (Raise (SystemExit status), log (EvExit g status) st).

(** [v.from_cli_args(args)]: only a class has the method. *)
Definition call_from_cli_args (v : Value) (args : Namespace) : M Instance :=
  match v with
  | VClass c => call (EvConstruct c) (from_cli_args c args)
  | _ => raise (AttributeError "from_cli_args")
  end.

(** [Registration._cli(args, print_help)].  The import of [Stack] inside
    the method has no effect of its own; the value that [register] returns
    is dropped. *)
Definition _cli (args : Namespace) (print_help : bool) : M unit :=
  let* sel := getattr args "registration_algorithm_class" in
  (if is_None sel || print_help then
     (let* register_group := get_register_group in
      ArgumentParser_print_help register_group) >>
     (let* register_group := get_register_group in
      ArgumentParser_exit register_group 2)
   else ret tt) >>
  let* algorithm_class := getattr args "registration_algorithm_class" in
  let* instance := call_from_cli_args algorithm_class args in
  print "Registering ..." >>
  let* s := call EvStackNew Stack_new in
  let* input := getattr args "input" in
  call (EvRead s input) (Stack_read s input) >>
  call (EvRegister instance s) (register instance s) >>
  let* output := getattr args "output" in
  call (EvWrite s output) (Stack_write s output).

(** ** Discovery *)

Definition RegistrationAlgorithmBase : ClassId := 0.

(** [b.__subclasses__()]: the classes that list [b] among their direct
    bases, in definition order. *)
Definition __subclasses__ (tbl : list ClassDef) (b : ClassId) : list ClassId :=
  cid <$> filter (fun d => b ∈ bases d) tbl.

(** [Registration.implementing_algorithms()]. *)
Definition implementing_algorithms : M (list ClassId) :=
  fun st => (Ret (__subclasses__ (classes st) RegistrationAlgorithmBase), st).



(** ** The registry *)

Fixpoint registry_lookup (m : Registry) (name : string) : option ClassId :=
  match m with
  | [] => None
  | (k, c) :: m' => if String.eqb k name then Some c else registry_lookup m' name
  end.

(** Modelled from the spec: [PipelineComponent], the base class that holds
    the registry, is not among the sources.  Adding a class to the
    name-to-subtype map: a name already taken by another class is a
    configuration error; a class that is already there is not added twice. *)
Definition registry_add (m : Registry) (c : ClassId) : result Registry :=
  match registry_lookup m (get_algorithm_name c) with
  | None => Ret (m ++ [(get_algorithm_name c, c)])
  | Some c' =>
      if Nat.eqb c' c then Ret m
      else Raise (ConfigurationError (get_algorithm_name c))
  end.

(** Modelled from the spec: [name_to_subtype_map], derived from the
    discovered classes and keyed by each class's name. *)
Fixpoint registry_extend (m : Registry) (discovered : list ClassId)
  : result Registry :=
  match discovered with
  | [] => Ret m
  | c :: rest =>
      match registry_add m c with
      | Ret m' => registry_extend m' rest
      | Raise e => Raise e
      end
  end.

(** Modelled from the spec: the map from names to classes of the
    discovered classes, built from the empty map. *)
Definition name_to_subtype_map (discovered : list ClassId) : result Registry :=
  registry_extend [] discovered.

(** A registry holds each name once, and each class under its own name. *)
Definition registry_ok (m : Registry) : Prop :=
  NoDup m.*1 /\ forall k c, (k, c) ∈ m -> k = get_algorithm_name c.

(** Modelled from the spec: [PipelineComponent._ensure_algorithms_setup],
    which populates the registry once, from the discovery, and does nothing
    when it is already populated. *)
Definition _ensure_algorithms_setup : M unit :=
  let* populated := (fun st => (Ret (bool_decide (is_Some (_algorithm_to_class_map st))), st)) in
  if (populated : bool) then ret tt
  else
    let* discovered := implementing_algorithms in
    fun st =>
      match name_to_subtype_map discovered with
      | Ret m => (Ret tt, set_algorithm_map m st)
      | Raise e => (Raise e, st)
      end.

(** Modelled from the spec: [PipelineComponent.algorithm_to_class_map];
    before the population the mapping is empty. *)
Definition algorithm_to_class_map : M Registry :=
  fun st => (Ret (default [] (_algorithm_to_class_map st)), st).

(** [dict.values()]. *)
Definition values (m : Registry) : list ClassId := m.*2.

(** ** Building parsers *)

Fixpoint lstrip_dash (s : string) : string :=
  match s with
  | String "-"%char r => lstrip_dash r
  | _ => s
  end.

Definition is_long_option (s : string) : bool :=
  match s with
  | String "-"%char (String "-"%char _) => true
  | _ => false
  end.

(** The [dest] argparse infers for an optional argument: the first long
    option string, else the first option string, without its dashes. *)
Definition dest_of (flags : list string) : string :=
  match List.filter is_long_option flags, flags with
  | f :: _, _ => lstrip_dash f
  | [], f :: _ => lstrip_dash f
  | [], [] => ""
  end.

(** A new parser has the help option only. *)
Definition new_parser (prog : string) : ArgumentParser :=
  mkParser prog [mkAction Help ["-h"; "--help"] "help" TyStr false] ∅ None.

Definition has_option (p : ArgumentParser) (flag : string) : bool :=
  existsb (fun a => existsb (String.eqb flag) (option_strings a)) (_actions p).

(** Follow a reference to a parser in order to call [meth] on it. *)
Definition deref (l : loc) (meth : string) : M ArgumentParser :=
  fun st =>
    match parsers st !! l with
    | Some p => (Ret p, st)
    | None => (Raise (AttributeError meth), st)
    end.

Definition store (l : loc) (p : ArgumentParser) : M unit :=
  fun st => (Ret tt, set_parsers (<[l := p]> (parsers st)) st).

Definition alloc (p : ArgumentParser) : M loc :=
  fun st => (Ret (length (parsers st)), set_parsers (parsers st ++ [p]) st).

(** [parser.add_argument(flags, type=ty, required=req)]. *)
Definition ArgumentParser_add_argument
    (l : loc) (flags : list string) (ty : ArgType) (req : bool) : M unit :=
  let* p := deref l "add_argument" in
  if existsb (has_option p) flags then
    raise (ArgumentError "conflicting option string")
  else
    store l (mkParser (prog p)
                      (_actions p ++ [mkAction Store flags (dest_of flags) ty req])
                      (_defaults p) (_subparsers p)).

(** [parser.set_defaults(name=v)]. *)
Definition ArgumentParser_set_defaults (l : loc) (name : string) (v : Value)
  : M unit :=
  let* p := deref l "set_defaults" in
  store l (mkParser (prog p) (_actions p) (<[name := v]> (_defaults p))
                    (_subparsers p)).

(** [parser.add_subparsers(dest=d)]; the action it returns is reached
    through the parser that owns it.  A second call is a usage error. *)
Definition ArgumentParser_add_subparsers (l : loc) (d : string) : M loc :=
  let* p := deref l "add_subparsers" in
  match _subparsers p with
  | Some _ => raise (SystemExit 2)
  | None =>
      store l (mkParser (prog p) (_actions p) (_defaults p)
                        (Some (mkSubParsers d ∅))) >>
      ret l
  end.

(** [subparsers.add_parser(name)]: a new parser, entered in the dictionary
    of sub-commands under [name]. *)
Definition SubParsersAction_add_parser (owner : loc) (name : string) : M loc :=
  let* p := deref owner "add_parser" in
  match _subparsers p with
  | None => raise (AttributeError "add_parser")
  | Some sp =>
      let* child := alloc (new_parser (prog p +:+ " " +:+ name)) in
      store owner
        (mkParser (prog p) (_actions p) (_defaults p)
           (Some (mkSubParsers (sp_dest sp)
                               (<[name := child]> (_name_parser_map sp))))) >>
      ret child
  end.

(** [algorithm_cls.add_arguments(group_parser)]: the class mutates the
    parser it is handed. *)
Definition call_add_arguments (c : ClassId) (l : loc) : M unit :=
  let* p := deref l "add_argument" in
  fun st =>
    let '(r, p') := add_arguments c p in
    (r, set_parsers (<[l := p']> (parsers st)) st).

Fixpoint for_each {A} (l : list A) (body : A -> M unit) : M unit :=
  match l with
  | [] => ret tt
  | x :: rest => body x >> for_each rest body
  end.

Definition assign_register_group (g : loc) : M unit :=
  fun st => (Ret tt, set_register_group g st).

(** The parser of a sub-command as [add_arguments] receives it: new, with
    the class as the default of the selection field. *)
Definition subcommand_parser (group_prog : string) (c : ClassId)
  : ArgumentParser :=
  mkParser (group_prog +:+ " " +:+ get_algorithm_name c)
           [mkAction Help ["-h"; "--help"] "help" TyStr false]
           (<["registration_algorithm_class" := VClass c]> ∅) None.

(** The parser of the command group as [add_to_parser] builds it under a
    root parser whose program name is [root_prog], with the dictionary
    [names] of sub-commands. *)
Definition register_group_parser (root_prog : string)
    (names : gmap string loc) : ArgumentParser :=
  mkParser (root_prog +:+ " " +:+ "register")
           [mkAction Help ["-h"; "--help"] "help" TyStr false;
            mkAction Store ["-i"; "--input"] "input" FsExistsType true;
            mkAction Store ["-o"; "--output"] "output" FsExistsType true]
           (<["starfish_command" := VCli]> ∅)
           (Some (mkSubParsers "registration_algorithm_class" names)).

(** The body of the loop of [add_to_parser]. *)
Definition add_algorithm (registration_subparsers : loc)
    (algorithm_cls : ClassId) : M unit :=
  let* group_parser :=
    SubParsersAction_add_parser registration_subparsers
                                (get_algorithm_name algorithm_cls) in
  ArgumentParser_set_defaults group_parser "registration_algorithm_class"
                              (VClass algorithm_cls) >>
  call_add_arguments algorithm_cls group_parser.

(** [Registration.add_to_parser(subparsers)]; [subparsers] is reached
    through the parser that owns it. *)
Definition add_to_parser (subparsers : loc) : M unit :=
  let* register_group := SubParsersAction_add_parser subparsers "register" in
  ArgumentParser_add_argument register_group ["-i"; "--input"] FsExistsType true >>
  ArgumentParser_add_argument register_group ["-o"; "--output"] FsExistsType true >>
  ArgumentParser_set_defaults register_group "starfish_command" VCli >>
  let* registration_subparsers :=
    ArgumentParser_add_subparsers register_group "registration_algorithm_class" in
  let* m := algorithm_to_class_map in
  for_each (values m) (add_algorithm registration_subparsers) >>
  assign_register_group register_group.

(** ** Parsing the command line

    [argparse] is the standard library's; it is modelled as far as the
    command group uses it: options that take one value, the check of the
    required options, and one level of sub-commands. *)













End Model.

Arguments Event : clear implicits.
Arguments State : clear implicits.

Notation "'let*' x ':=' m 'in' k" := (bind m (fun x => k))
  (at level 10, x name, m at level 100, k at level 200).
Notation "m '>>' k" := (bind m (fun _ => k))
  (at level 90, right associativity).

(** ** A concrete world

    Stacks are arrays of pixel values held in a store; files hold the same
    arrays.  Two algorithms are defined: [fourier_shift] works on the stack
    in place, [shifted_copy] leaves the stack as it is and returns a new,
    transformed one; [needs_flag] requires an option of its own. *)

Module Concrete.

Record World := mkWorld {
  stacks : list (list Z);
  files : gmap string (list Z)
}.

Definition fourier_shift : ClassId := 1.
Definition shifted_copy : ClassId := 2.

Definition shift (img : list Z) : list Z := map Z.succ img.

Definition needs_flag : ClassId := 4.

Definition name_of (c : ClassId) : string :=
  match c with
  | 1 => "fourier_shift"
  | 2 => "shifted_copy"
  | 4 => "needs-flag"
  | _ => "unnamed"
  end.

Definition declare (c : ClassId) (p : ArgumentParser)
  : result unit * ArgumentParser :=
  match c with
  | 1 => (Ret tt,
          mkParser (prog p)
            (_actions p ++ [mkAction Store ["--upsampling"] "upsampling" TyStr false])
            (_defaults p) (_subparsers p))
  | 4 => (Ret tt,
          mkParser (prog p)
            (_actions p ++ [mkAction Store ["--shift"] "shift" TyStr true])
            (_defaults p) (_subparsers p))
  | _ => (Ret tt, p)
  end.

(** [needs_flag] cannot be constructed without its [shift]. *)
Definition construct (c : ClassId) (args : Namespace) (w : World)
  : result ClassId * World :=
  match c, args !! "shift" with
  | 4, None => (Raise (Exception "ValueError"), w)
  | _, _ => (Ret c, w)
  end.

Definition run (inst : ClassId) (s : nat) (w : World)
  : result (option nat) * World :=
  match stacks w !! s with
  | None => (Raise (Exception "ValueError"), w)
  | Some img =>
      match inst with
      | 1 => (Ret None, mkWorld (<[s := shift img]> (stacks w)) (files w))
      | 2 => (Ret (Some (length (stacks w))),
              mkWorld (stacks w ++ [shift img]) (files w))
      | _ => (Raise (Exception "NotImplementedError"), w)
      end
  end.

#[export] Instance algorithms : AlgorithmContract World ClassId nat := {
  get_algorithm_name := name_of;
  add_arguments := declare;
  from_cli_args := construct;
  register := run
}.

Definition new_stack (w : World) : result nat * World :=
  (Ret (length (stacks w)), mkWorld (stacks w ++ [[]]) (files w)).

Definition read (s : nat) (path : Value) (w : World) : result unit * World :=
  match path with
  | VStr f =>
      match files w !! f with
      | Some img => (Ret tt, mkWorld (<[s := img]> (stacks w)) (files w))
      | None => (Raise (Exception "IOError"), w)
      end
  | _ => (Raise (Exception "TypeError"), w)
  end.

Definition write (s : nat) (path : Value) (w : World) : result unit * World :=
  match path, stacks w !! s with
  | VStr f, Some img => (Ret tt, mkWorld (stacks w) (<[f := img]> (files w)))
  | VStr _, None => (Raise (Exception "ValueError"), w)
  | _, _ => (Raise (Exception "TypeError"), w)
  end.

#[export] Instance stack_io : StackContract World nat := {
  Stack_new := new_stack;
  Stack_read := read;
  Stack_write := write
}.

#[export] Instance file_system : FileSystem World := {
  path_exists w f := bool_decide (is_Some (files w !! f))
}.

(** The class statements: the base, the two algorithms, and a class that
    derives from [fourier_shift]. *)
Definition refined_shift : ClassId := 3.

Definition class_table : list ClassDef :=
  [ mkClass RegistrationAlgorithmBase [] true;
    mkClass fourier_shift [RegistrationAlgorithmBase] false;
    mkClass shifted_copy [RegistrationAlgorithmBase] false;
    mkClass refined_shift [fourier_shift] false ].

Definition disk : gmap string (list Z) :=
  {[ "/tmp/in" := [1; 2; 3]%Z ; "/tmp/out" := []%Z ]}.

(** The root parser of the program, with its sub-command action. *)
Definition root : ArgumentParser :=
  mkParser "starfish" [mkAction Help ["-h"; "--help"] "help" TyStr false] ∅
           (Some (mkSubParsers "starfish_command" ∅)).

(** The interpreter after the imports: no parser group yet, the registry
    not yet populated. *)
Definition st0 : State World ClassId nat :=
  mkState (mkWorld [] disk) [root] class_table None None [].

(** The arguments of [register -i /tmp/in -o /tmp/out NAME]. *)
Definition args_for (c : ClassId) : Namespace :=
  {[ "input" := VStr "/tmp/in";
     "output" := VStr "/tmp/out";
     "registration_algorithm_class" := VClass c;
     "starfish_command" := VCli ]}.

(** The arguments of [register -i /tmp/in -o /tmp/out]. *)
Definition args_none : Namespace :=
  {[ "input" := VStr "/tmp/in";
     "output" := VStr "/tmp/out";
     "registration_algorithm_class" := VNone;
     "starfish_command" := VCli ]}.

(** Arguments whose input names no file, and arguments whose output is not
    a path. *)
Definition args_missing_input : Namespace :=
  <["input" := VStr "/tmp/missing"]> (args_for fourier_shift).

Definition args_bad_output : Namespace :=
  <["output" := VNone]> (args_for fourier_shift).

(** The interpreter once the registry is set up, and once the command
    group is built under the root parser. *)
Definition st1 : State World ClassId nat :=
  snd (_ensure_algorithms_setup st0).

Definition st2 : State World ClassId nat :=
  snd (add_to_parser 0 st1).

End Concrete.

(** ** A class whose options clash

    The same world, with a registry in which the class [clash] stands
    between the two algorithms; its [add_arguments] declares [-h], which
    the parser it is handed has already, and so raises. *)

Module Clashing.


Definition name_of (c : ClassId) : string :=
  match c with
  | 7 => "clash"
  | _ => Concrete.name_of c
  end.

Definition declare (c : ClassId) (p : ArgumentParser)
  : result unit * ArgumentParser :=
  match c with
  | 7 => if has_option p "-h"
         then (Raise (ArgumentError "conflicting option string"), p)
         else (Ret tt, p)
  | _ => Concrete.declare c p
  end.

Definition algorithms : AlgorithmContract Concrete.World ClassId nat := {|
  get_algorithm_name := name_of;
  add_arguments := declare;
  from_cli_args := Concrete.construct;
  register := Concrete.run
|}.


End Clashing.

(** * Properties *)

Section Properties.

Context {World Instance StackRef : Type}.
Context `{!AlgorithmContract World Instance StackRef}.
Context `{!StackContract World StackRef}.
Context `{!FileSystem World}.

Local Abbreviation State := (State World Instance StackRef).
Local Abbreviation Event := (Event Instance StackRef).
Local Abbreviation M := (@M World Instance StackRef).

(** ** The monad *)

Lemma bind_Ret {A B} (m : M A) (k : A -> M B) st a st1 :
  m st = (Ret a, st1) -> bind m k st = k a st1.
Proof. unfold bind. intros ->. reflexivity. Qed.

Lemma bind_Raise {A B} (m : M A) (k : A -> M B) st e st1 :
  m st = (Raise e, st1) -> bind m k st = (Raise e, st1).
Proof. unfold bind. intros ->. reflexivity. Qed.

Lemma bind_inv_Ret {A B} (m : M A) (k : A -> M B) st b st2 :
  bind m k st = (Ret b, st2) ->
  exists a st1, m st = (Ret a, st1) /\ k a st1 = (Ret b, st2).
Proof.
  unfold bind. destruct (m st) as [[a|e] st1]; intros Hk.
  - exists a, st1. split; [reflexivity | exact Hk].
  - discriminate Hk.
Qed.

Lemma getattr_Some (ns : Namespace) name v (st : State) :
  ns !! name = Some v -> getattr ns name st = (Ret v, st).
Proof. unfold getattr. intros ->. reflexivity. Qed.

Lemma getattr_None (ns : Namespace) name (st : State) :
  ns !! name = None -> getattr ns name st = (Raise (AttributeError name), st).
Proof. unfold getattr. intros ->. reflexivity. Qed.

Lemma call_eq {A} ev (f : World -> result A * World) (st : State) r w :
  f (world st) = (r, w) -> call ev f st = (r, after [ev] w st).
Proof. unfold call. intros ->. reflexivity. Qed.

Lemma after_after t1 w1 t2 w2 (st : State) :
  after t2 w2 (after t1 w1 st) = after (t1 ++ t2) w2 st.
Proof. unfold after. simpl. rewrite <- app_assoc. reflexivity. Qed.

Lemma log_after e t w (st : State) :
  log e (after t w st) = after (t ++ [e]) w st.
Proof. unfold after, log. simpl. rewrite <- app_assoc. reflexivity. Qed.

Lemma log_eq e (st : State) : log e st = after [e] (world st) st.
Proof. reflexivity. Qed.

Lemma world_after t w (st : State) : world (after t w st) = w.
Proof. reflexivity. Qed.


(** ** The dispatcher *)

Lemma bind_ret_l {A B} (a : A) (k : A -> M B) (st : State) :
  bind (ret a) k st = k a st.
Proof. reflexivity. Qed.

Lemma call_after {A} ev (f : World -> result A * World) t w (st : State) r w' :
  f w = (r, w') -> call ev f (after t w st) = (r, after (t ++ [ev]) w' st).
Proof.
  intros Hf. unfold call. rewrite world_after, Hf, log_after. reflexivity.
Qed.

Lemma print_after s t w (st : State) :
  print s (after t w st) = (Ret tt, after (t ++ [EvPrint s]) w st).
Proof. unfold print. rewrite log_after. reflexivity. Qed.

(** The dispatcher on a selected algorithm, call by call. *)
Lemma cli_selected_unfold (args : Namespace) (c : ClassId) (st : State) :
  args !! "registration_algorithm_class" = Some (VClass c) ->
  _cli args false st =
    match from_cli_args c args (world st) with
    | (Raise e, w1) => (Raise e, after [EvConstruct c] w1 st)
    | (Ret inst, w1) =>
      let t1 := [EvConstruct c; EvPrint "Registering ..."; EvStackNew] in
      match Stack_new w1 with
      | (Raise e, w2) => (Raise e, after t1 w2 st)
      | (Ret s, w2) =>
        match args !! "input" with
        | None => (Raise (AttributeError "input"), after t1 w2 st)
        | Some i =>
          match Stack_read s i w2 with
          | (Raise e, w3) => (Raise e, after (t1 ++ [EvRead s i]) w3 st)
          | (Ret _, w3) =>
            let t2 := t1 ++ [EvRead s i; EvRegister inst s] in
            match register inst s w3 with
            | (Raise e, w4) => (Raise e, after t2 w4 st)
            | (Ret _, w4) =>
              match args !! "output" with
              | None => (Raise (AttributeError "output"), after t2 w4 st)
              | Some o =>
                (fst (Stack_write s o w4),
                 after (t2 ++ [EvWrite s o]) (snd (Stack_write s o w4)) st)
              end
            end
          end
        end
      end
    end.
Proof.
  intros Hsel. unfold _cli.
  rewrite (bind_Ret _ _ _ _ _ (getattr_Some _ _ _ _ Hsel)).
  cbn [is_None orb]. rewrite bind_ret_l.
  rewrite (bind_Ret _ _ _ _ _ (getattr_Some _ _ _ _ Hsel)).
  unfold call_from_cli_args.
  destruct (from_cli_args c args (world st)) as [[inst|e] w1] eqn:Hc;
    [rewrite (bind_Ret _ _ _ _ _ (call_eq _ _ _ _ _ Hc))
    |exact (bind_Raise _ _ _ _ _ (call_eq _ _ _ _ _ Hc))].
  rewrite (bind_Ret _ _ _ _ _ (print_after _ _ _ _)).
  destruct (Stack_new w1) as [[s|e] w2] eqn:Hn;
    [rewrite (bind_Ret _ _ _ _ _ (call_after _ _ _ _ _ _ _ Hn))
    |exact (bind_Raise _ _ _ _ _ (call_after _ _ _ _ _ _ _ Hn))].
  destruct (args !! "input") as [i|] eqn:Hi;
    [rewrite (bind_Ret _ _ _ _ _ (getattr_Some _ _ _ _ Hi))
    |exact (bind_Raise _ _ _ _ _ (getattr_None _ _ _ Hi))].
  destruct (Stack_read s i w2) as [[[]|e] w3] eqn:Hr;
    [rewrite (bind_Ret _ _ _ _ _ (call_after _ _ _ _ _ _ _ Hr))
    |exact (bind_Raise _ _ _ _ _ (call_after _ _ _ _ _ _ _ Hr))].
  destruct (register inst s w3) as [[rv|e] w4] eqn:Hx;
    [rewrite (bind_Ret _ _ _ _ _ (call_after _ _ _ _ _ _ _ Hx))
    |exact (bind_Raise _ _ _ _ _ (call_after _ _ _ _ _ _ _ Hx))].
  destruct (args !! "output") as [o|] eqn:Ho;
    [rewrite (bind_Ret _ _ _ _ _ (getattr_Some _ _ _ _ Ho))
    |exact (bind_Raise _ _ _ _ _ (getattr_None _ _ _ Ho))].
  destruct (Stack_write s o w4) as [r w5] eqn:Hw.
  exact (call_after _ _ _ _ _ _ _ Hw).
Qed.

Lemma get_register_group_Some g (st : State) :
  register_group st = Some g -> get_register_group st = (Ret g, st).
Proof. unfold get_register_group. intros ->. reflexivity. Qed.

Lemma get_register_group_None (st : State) :
  register_group st = None ->
  get_register_group st = (Raise (AttributeError "register_group"), st).
Proof. unfold get_register_group. intros ->. reflexivity. Qed.

Lemma print_help_eq g (st : State) :
  ArgumentParser_print_help g st
    = (Ret tt, after [EvPrintHelp g] (world st) st).
Proof. reflexivity. Qed.

Lemma exit_after g n t w (st : State) :
  ArgumentParser_exit g n (after t w st)
    = (Raise (SystemExit n), after (t ++ [EvExit g n]) w st).
Proof. unfold ArgumentParser_exit. rewrite log_after. reflexivity. Qed.

(** The dispatcher when nothing is selected or the help is forced, once
    the class attribute [register_group] is there. *)
Lemma cli_no_selection_help (args : Namespace) ph v g (st : State) :
  args !! "registration_algorithm_class" = Some v ->
  is_None v || ph = true ->
  register_group st = Some g ->
  _cli args ph st =
    (Raise (SystemExit 2), after [EvPrintHelp g; EvExit g 2] (world st) st).
Proof.
  intros Hsel Hno Hg. unfold _cli.
  rewrite (bind_Ret _ _ _ _ _ (getattr_Some _ _ _ _ Hsel)). rewrite Hno.
  apply bind_Raise.
  assert (Hhelp : bind get_register_group ArgumentParser_print_help st
                  = (Ret tt, after [EvPrintHelp g] (world st) st)).
  { rewrite (bind_Ret _ _ _ _ _ (get_register_group_Some _ _ Hg)).
    apply print_help_eq. }
  rewrite (bind_Ret _ _ _ _ _ Hhelp).
  rewrite (bind_Ret _ _ _ _ _
             (get_register_group_Some g (after _ _ st) Hg)).
  apply exit_after.
Qed.

(** The same call when the class attribute was never assigned. *)
Lemma cli_no_selection_unset (args : Namespace) ph v (st : State) :
  args !! "registration_algorithm_class" = Some v ->
  is_None v || ph = true ->
  register_group st = None ->
  _cli args ph st = (Raise (AttributeError "register_group"), st).
Proof.
  intros Hsel Hno Hg. unfold _cli.
  rewrite (bind_Ret _ _ _ _ _ (getattr_Some _ _ _ _ Hsel)). rewrite Hno.
  apply bind_Raise. apply bind_Raise. apply bind_Raise.
  exact (get_register_group_None _ Hg).
Qed.

Ltac reduce := cbv beta iota zeta.

(** The events [t] were added, their steps are an initial part of the
    sequence, and the result is not a normal return. *)
Ltac stopped :=
  eexists; split;
  [reflexivity | split; [eexists; reflexivity | cbn [fst]; discriminate]].

(** C1: when an algorithm is selected and no help is forced, the dispatcher
    constructs the instance from the parsed arguments, loads the container
    from the input path, runs the instance on it and writes the container
    to the output path, in that order, and ends normally, with status 0.
    Whatever happens, the steps made are an initial part of that sequence,
    and the dispatcher ends normally only after all four. *)
Theorem cli_selected_runs_sequence (args : Namespace) (c : ClassId) (st : State) :
  args !! "registration_algorithm_class" = Some (VClass c) ->
  (exists t,
     trace (snd (_cli args false st)) = trace st ++ t /\
     steps t `prefix_of` [Construct; Load; Execute; Persist] /\
     (fst (_cli args false st) = Ret tt ->
      steps t = [Construct; Load; Execute; Persist])) /\
  (forall i o inst s rv w1 w2 w3 w4 w5,
     args !! "input" = Some i ->
     args !! "output" = Some o ->
     from_cli_args c args (world st) = (Ret inst, w1) ->
     Stack_new w1 = (Ret s, w2) ->
     Stack_read s i w2 = (Ret tt, w3) ->
     register inst s w3 = (Ret rv, w4) ->
     Stack_write s o w4 = (Ret tt, w5) ->
     _cli args false st =
       (Ret tt,
        after [EvConstruct c; EvPrint "Registering ..."; EvStackNew;
               EvRead s i; EvRegister inst s; EvWrite s o] w5 st) /\
     steps [EvConstruct c; EvPrint "Registering ..."; EvStackNew;
            EvRead s i; EvRegister inst s; EvWrite s o]
       = [Construct; Load; Execute; Persist] /\
     process_status (fst (_cli args false st)) = 0%Z).
Proof.
  intros Hsel. rewrite (cli_selected_unfold args c st Hsel). split.
  - destruct (from_cli_args c args (world st)) as [[inst|e] w1]; reduce;
      [|stopped].
    destruct (Stack_new w1) as [[s|e] w2]; reduce;
      [|stopped].
    destruct (args !! "input") as [i|]; reduce;
      [|stopped].
    destruct (Stack_read s i w2) as [[[]|e] w3]; reduce;
      [|stopped].
    destruct (register inst s w3) as [[rv|e] w4]; reduce;
      [|stopped].
    destruct (args !! "output") as [o|]; reduce;
      [|stopped].
    eexists. split; [reflexivity|]. split; [eexists; reflexivity|].
    intros _. reflexivity.
  - intros i o inst s rv w1 w2 w3 w4 w5 Hi Ho Hc Hn Hr Hx Hw.
    rewrite Hc; reduce. rewrite Hn; reduce. rewrite Hi; reduce.
    rewrite Hr; reduce. rewrite Hx; reduce. rewrite Ho; reduce.
    rewrite Hw. split; [reflexivity|]. split; reflexivity.
Qed.

(** C2: when the parsed arguments carry no algorithm, or the help is
    forced, the dispatcher prints the help of the command group and exits
    with status 2; nothing is constructed, loaded, run or written.  The
    command group is the one that [add_to_parser] left in the class
    attribute. *)
Theorem cli_usage_error (args : Namespace) (ph : bool) (v : Value) (g : loc)
    (st : State) :
  args !! "registration_algorithm_class" = Some v ->
  v = VNone \/ ph = true ->
  register_group st = Some g ->
  _cli args ph st =
    (Raise (SystemExit 2), after [EvPrintHelp g; EvExit g 2] (world st) st) /\
  process_status (fst (_cli args ph st)) = 2%Z /\
  steps ([EvPrintHelp g; EvExit g 2] : list Event) = [].
Proof.
  intros Hsel Hno Hg.
  assert (Hb : is_None v || ph = true).
  { destruct Hno as [-> | ->]; [reflexivity | apply orb_true_r]. }
  rewrite (cli_no_selection_help args ph v g st Hsel Hb Hg).
  split; [reflexivity|]. split; reflexivity.
Qed.

(** C3: a failure of the construction, of the load, of the run or of the
    write leaves the dispatcher as the exception that was raised, in the
    world as the failing call left it, and no later step is made. *)
Theorem cli_failure_propagates (args : Namespace) (c : ClassId) (st : State) :
  args !! "registration_algorithm_class" = Some (VClass c) ->
  (forall e w1,
     from_cli_args c args (world st) = (Raise e, w1) ->
     _cli args false st = (Raise e, after [EvConstruct c] w1 st)) /\
  (forall inst w1 e w2,
     from_cli_args c args (world st) = (Ret inst, w1) ->
     Stack_new w1 = (Raise e, w2) ->
     _cli args false st =
       (Raise e,
        after [EvConstruct c; EvPrint "Registering ..."; EvStackNew] w2 st)) /\
  (forall inst w1 s w2 i e w3,
     from_cli_args c args (world st) = (Ret inst, w1) ->
     Stack_new w1 = (Ret s, w2) ->
     args !! "input" = Some i ->
     Stack_read s i w2 = (Raise e, w3) ->
     _cli args false st =
       (Raise e,
        after [EvConstruct c; EvPrint "Registering ..."; EvStackNew;
               EvRead s i] w3 st)) /\
  (forall inst w1 s w2 i w3 e w4,
     from_cli_args c args (world st) = (Ret inst, w1) ->
     Stack_new w1 = (Ret s, w2) ->
     args !! "input" = Some i ->
     Stack_read s i w2 = (Ret tt, w3) ->
     register inst s w3 = (Raise e, w4) ->
     _cli args false st =
       (Raise e,
        after [EvConstruct c; EvPrint "Registering ..."; EvStackNew;
               EvRead s i; EvRegister inst s] w4 st)) /\
  (forall inst w1 s w2 i w3 rv w4 o e w5,
     from_cli_args c args (world st) = (Ret inst, w1) ->
     Stack_new w1 = (Ret s, w2) ->
     args !! "input" = Some i ->
     Stack_read s i w2 = (Ret tt, w3) ->
     register inst s w3 = (Ret rv, w4) ->
     args !! "output" = Some o ->
     Stack_write s o w4 = (Raise e, w5) ->
     _cli args false st =
       (Raise e,
        after [EvConstruct c; EvPrint "Registering ..."; EvStackNew;
               EvRead s i; EvRegister inst s; EvWrite s o] w5 st)).
Proof.
  intros Hsel. rewrite (cli_selected_unfold args c st Hsel).
  split; [|split; [|split; [|split]]].
  - intros e w1 Hc. rewrite Hc. reflexivity.
  - intros inst w1 e w2 Hc Hn. rewrite Hc; reduce. rewrite Hn. reflexivity.
  - intros inst w1 s w2 i e w3 Hc Hn Hi Hr.
    rewrite Hc; reduce. rewrite Hn; reduce. rewrite Hi; reduce.
    rewrite Hr. reflexivity.
  - intros inst w1 s w2 i w3 e w4 Hc Hn Hi Hr Hx.
    rewrite Hc; reduce. rewrite Hn; reduce. rewrite Hi; reduce.
    rewrite Hr; reduce. rewrite Hx. reflexivity.
  - intros inst w1 s w2 i w3 rv w4 o e w5 Hc Hn Hi Hr Hx Ho Hw.
    rewrite Hc; reduce. rewrite Hn; reduce. rewrite Hi; reduce.
    rewrite Hr; reduce. rewrite Hx; reduce. rewrite Ho; reduce.
    rewrite Hw. reflexivity.
Qed.

(** C5, amended: the container written to the output path is the container
    that was loaded from the input path, in the state in which the run left
    it; what the run returns is not used. *)
Theorem cli_persists_loaded_container (args : Namespace) (c : ClassId)
    (st : State) i o inst s rv w1 w2 w3 w4 :
  args !! "registration_algorithm_class" = Some (VClass c) ->
  args !! "input" = Some i ->
  args !! "output" = Some o ->
  from_cli_args c args (world st) = (Ret inst, w1) ->
  Stack_new w1 = (Ret s, w2) ->
  Stack_read s i w2 = (Ret tt, w3) ->
  register inst s w3 = (Ret rv, w4) ->
  _cli args false st =
    (fst (Stack_write s o w4),
     after [EvConstruct c; EvPrint "Registering ..."; EvStackNew;
            EvRead s i; EvRegister inst s; EvWrite s o]
           (snd (Stack_write s o w4)) st).
Proof.
  intros Hsel Hi Ho Hc Hn Hr Hx.
  rewrite (cli_selected_unfold args c st Hsel).
  rewrite Hc; reduce. rewrite Hn; reduce. rewrite Hi; reduce.
  rewrite Hr; reduce. rewrite Hx; reduce. rewrite Ho. reflexivity.
Qed.

(** ** Discovery *)


(** ** The registry *)

Lemma registry_lookup_Some (m : Registry) n c :
  registry_lookup m n = Some c -> (n, c) ∈ m.
Proof.
  induction m as [|[k c'] m IH]; simpl; [discriminate|].
  destruct (String.eqb_spec k n) as [->|Hne].
  - intros [= ->]. apply elem_of_cons. auto.
  - intros Hl. apply elem_of_cons. auto.
Qed.

Lemma registry_lookup_None (m : Registry) n :
  registry_lookup m n = None -> n ∉ m.*1.
Proof.
  induction m as [|[k c'] m IH]; simpl.
  - intros _ Hin. inversion Hin.
  - destruct (String.eqb_spec k n) as [->|Hne]; [discriminate|].
    intros Hl Hin. apply elem_of_cons in Hin as [Heq|Hin].
    + simpl in Heq. congruence.
    + exact (IH Hl Hin).
Qed.

Lemma registry_ok_nil : registry_ok [].
Proof.
  split; [constructor|]. intros k c Hin. inversion Hin.
Qed.

Lemma registry_ok_names (m : Registry) :
  registry_ok m -> get_algorithm_name <$> values m = m.*1.
Proof.
  intros [_ Hk]. unfold values. induction m as [|[k c] m IH]; [reflexivity|].
  simpl. f_equal.
  - symmetry. apply Hk. apply elem_of_cons. auto.
  - apply IH. intros k' c' Hin. apply Hk. apply elem_of_cons. auto.
Qed.

Lemma registry_ok_unique (m : Registry) a b :
  registry_ok m -> a ∈ values m -> b ∈ values m ->
  get_algorithm_name a = get_algorithm_name b -> a = b.
Proof.
  intros Hok Ha Hb Hn. pose proof (registry_ok_names m Hok) as Hnames.
  destruct Hok as [Hnd _]. rewrite <- Hnames in Hnd.
  apply list_elem_of_lookup in Ha as [i Hi].
  apply list_elem_of_lookup in Hb as [j Hj].
  assert (i = j) as ->.
  { apply (NoDup_lookup _ i j (get_algorithm_name a) Hnd).
    - rewrite list_lookup_fmap, Hi. reflexivity.
    - rewrite list_lookup_fmap, Hj, Hn. reflexivity. }
  congruence.
Qed.

Lemma registry_add_Ret (m m' : Registry) c :
  registry_ok m -> registry_add m c = Ret m' ->
  registry_ok m' /\ forall x, x ∈ values m' <-> x ∈ values m \/ x = c.
Proof.
  intros Hok. unfold registry_add.
  destruct (registry_lookup m (get_algorithm_name c)) as [c'|] eqn:Hl.
  - destruct (Nat.eqb_spec c' c) as [->|Hne]; [|discriminate].
    intros [= <-]. split; [exact Hok|].
    intros x. split; [auto|]. intros [Hx| ->]; [exact Hx|].
    apply registry_lookup_Some in Hl.
    apply (list_elem_of_fmap_2 snd) in Hl. exact Hl.
  - intros [= <-]. apply registry_lookup_None in Hl.
    destruct Hok as [Hnd Hk]. split; [split|].
    + rewrite fmap_app. apply NoDup_app. split; [exact Hnd|]. split.
      * intros k Hin Hin'. apply list_elem_of_singleton in Hin'.
        simpl in Hin'. congruence.
      * apply NoDup_singleton.
    + intros k x Hin. apply elem_of_app in Hin as [Hin|Hin]; [auto|].
      apply list_elem_of_singleton in Hin. congruence.
    + intros x. unfold values. rewrite fmap_app, elem_of_app.
      simpl. rewrite list_elem_of_singleton. reflexivity.
Qed.

Lemma registry_add_Raise (m : Registry) c e :
  registry_add m c = Raise e -> exists n, e = ConfigurationError n.
Proof.
  unfold registry_add.
  destruct (registry_lookup m (get_algorithm_name c)) as [c'|];
    [|discriminate].
  destruct (c' =? c); [discriminate|]. intros [= <-]. eauto.
Qed.

Lemma registry_extend_Ret ds : forall (m m' : Registry),
  registry_ok m -> registry_extend m ds = Ret m' ->
  registry_ok m' /\ forall x, x ∈ values m' <-> x ∈ values m \/ x ∈ ds.
Proof.
  induction ds as [|c ds IH]; simpl; intros m m' Hok.
  - intros [= <-]. split; [exact Hok|]. intros x. split; [auto|].
    intros [Hx|Hx]; [exact Hx|inversion Hx].
  - destruct (registry_add m c) as [m1|e] eqn:Hadd; [|discriminate].
    intros Hext. destruct (registry_add_Ret m m1 c Hok Hadd) as [Hok1 Hv1].
    destruct (IH m1 m' Hok1 Hext) as [Hok' Hv']. split; [exact Hok'|].
    intros x. rewrite Hv', Hv1, elem_of_cons. tauto.
Qed.

Lemma registry_extend_Raise ds : forall (m : Registry) e,
  registry_extend m ds = Raise e -> exists n, e = ConfigurationError n.
Proof.
  induction ds as [|c ds IH]; simpl; intros m e; [discriminate|].
  destruct (registry_add m c) as [m1|e1] eqn:Hadd.
  - apply IH.
  - intros [= <-]. exact (registry_add_Raise m c e1 Hadd).
Qed.

Lemma name_to_subtype_map_ok ds (m : Registry) :
  name_to_subtype_map ds = Ret m ->
  registry_ok m /\ forall x, x ∈ values m <-> x ∈ ds.
Proof.
  intros Hm.
  destruct (registry_extend_Ret ds [] m registry_ok_nil Hm) as [Hok Hv].
  split; [exact Hok|]. intros x. rewrite Hv. split; [|auto].
  intros [Hx|Hx]; [inversion Hx|exact Hx].
Qed.

(** C6: in a registry that was built, two distinct classes have distinct
    names, every discovered class is there under its own name, and no name
    is there twice; when two distinct discovered classes report the same
    name, the building fails with a configuration error. *)
Theorem name_to_subtype_map_unique (ds : list ClassId) :
  (forall m : Registry,
     name_to_subtype_map ds = Ret m ->
     NoDup m.*1 /\
     (forall k c, (k, c) ∈ m -> k = get_algorithm_name c) /\
     (forall c, c ∈ values m <-> c ∈ ds) /\
     (forall a b, a ∈ values m -> b ∈ values m -> a <> b ->
                  get_algorithm_name a <> get_algorithm_name b)) /\
  (forall a b,
     a ∈ ds -> b ∈ ds -> a <> b ->
     get_algorithm_name a = get_algorithm_name b ->
     exists n, name_to_subtype_map ds = Raise (ConfigurationError n)).
Proof.
  split.
  - intros m Hm. destruct (name_to_subtype_map_ok ds m Hm) as [Hok Hv].
    destruct Hok as [Hnd Hk]. split; [exact Hnd|]. split; [exact Hk|].
    split; [exact Hv|].
    intros a b Ha Hb Hab Hn. apply Hab.
    exact (registry_ok_unique m a b (conj Hnd Hk) Ha Hb Hn).
  - intros a b Ha Hb Hab Hn.
    destruct (name_to_subtype_map ds) as [m|e] eqn:Hm.
    + destruct (name_to_subtype_map_ok ds m Hm) as [Hok Hv].
      exfalso. apply Hab.
      apply (registry_ok_unique m a b Hok); [apply Hv, Ha|apply Hv, Hb|exact Hn].
    + destruct (registry_extend_Raise ds [] e Hm) as [n ->]. eauto.
Qed.

(** C8: a second discovery returns what the first returned and changes
    nothing, and setting the registry up twice leaves the interpreter as
    setting it up once does: the same map from names to classes, whose
    entries are there once. *)
Theorem discovery_idempotent (st : State) :
  bind implementing_algorithms (fun _ => implementing_algorithms) st
    = implementing_algorithms st /\
  snd (implementing_algorithms st) = st /\
  bind _ensure_algorithms_setup (fun _ => _ensure_algorithms_setup) st
    = _ensure_algorithms_setup st /\
  (forall m : Registry,
     _algorithm_to_class_map st = None ->
     _algorithm_to_class_map (snd (_ensure_algorithms_setup st)) = Some m ->
     NoDup m.*1 /\ NoDup (values m)).
Proof.
  split; [reflexivity|]. split; [reflexivity|]. split.
  - unfold _ensure_algorithms_setup, bind, implementing_algorithms, ret.
    destruct (_algorithm_to_class_map st) as [m|] eqn:Hm; simpl.
    + rewrite Hm. reflexivity.
    + destruct (name_to_subtype_map _) as [m|e]; simpl; reflexivity.
  - intros m Hnone.
    unfold _ensure_algorithms_setup, bind, implementing_algorithms, ret.
    rewrite Hnone. simpl.
    destruct (name_to_subtype_map _) as [m'|e] eqn:Hm; simpl.
    + intros [= ->]. destruct (name_to_subtype_map_ok _ m Hm) as [Hok _].
      pose proof (registry_ok_names m Hok) as Hnames.
      destruct Hok as [Hnd _]. split; [exact Hnd|].
      apply (NoDup_fmap_1 get_algorithm_name). rewrite Hnames. exact Hnd.
    + rewrite Hnone. discriminate.
Qed.


(** ** Building the command group *)

Lemma deref_Some l meth p (st : State) :
  parsers st !! l = Some p -> deref l meth st = (Ret p, st).
Proof. unfold deref. intros ->. reflexivity. Qed.

Lemma deref_None l meth (st : State) :
  parsers st !! l = None -> deref l meth st = (Raise (AttributeError meth), st).
Proof. unfold deref. intros ->. reflexivity. Qed.

Lemma add_parser_exec owner p sp name (st : State) :
  parsers st !! owner = Some p ->
  _subparsers p = Some sp ->
  SubParsersAction_add_parser owner name st =
    (Ret (length (parsers st)),
     set_parsers
       (<[owner := mkParser (prog p) (_actions p) (_defaults p)
                     (Some (mkSubParsers (sp_dest sp)
                        (<[name := length (parsers st)]> (_name_parser_map sp))))]>
          (parsers st ++ [new_parser (prog p +:+ " " +:+ name)])) st).
Proof.
  intros Hp Hsp. unfold SubParsersAction_add_parser.
  rewrite (bind_Ret _ _ _ _ _ (deref_Some _ _ _ _ Hp)). rewrite Hsp.
  unfold bind, alloc, store, ret. reflexivity.
Qed.

Lemma set_defaults_exec l p name v (st : State) :
  parsers st !! l = Some p ->
  ArgumentParser_set_defaults l name v st =
    (Ret tt,
     set_parsers (<[l := mkParser (prog p) (_actions p)
                           (<[name := v]> (_defaults p)) (_subparsers p)]>
                    (parsers st)) st).
Proof.
  intros Hp. unfold ArgumentParser_set_defaults.
  rewrite (bind_Ret _ _ _ _ _ (deref_Some _ _ _ _ Hp)). reflexivity.
Qed.

Lemma call_add_arguments_exec c l p (st : State) :
  parsers st !! l = Some p ->
  call_add_arguments c l st =
    (fst (add_arguments c p),
     set_parsers (<[l := snd (add_arguments c p)]> (parsers st)) st).
Proof.
  intros Hp. unfold call_add_arguments.
  rewrite (bind_Ret _ _ _ _ _ (deref_Some _ _ _ _ Hp)).
  destruct (add_arguments c p) as [r q]. reflexivity.
Qed.

Lemma parsers_set_parsers h (st : State) : parsers (set_parsers h st) = h.
Proof. reflexivity. Qed.

Lemma set_parsers_twice h1 h2 (st : State) :
  set_parsers h2 (set_parsers h1 st) = set_parsers h2 st.
Proof. reflexivity. Qed.

(** The loop body: the group [G] gets the entry for the class, and the
    store gets the parser of the sub-command as the class left it. *)
Lemma add_algorithm_exec g G sp c (st : State) :
  parsers st !! g = Some G ->
  _subparsers G = Some sp ->
  add_algorithm g c st =
    (fst (add_arguments c (subcommand_parser (prog G) c)),
     set_parsers
       (<[g := mkParser (prog G) (_actions G) (_defaults G)
                 (Some (mkSubParsers (sp_dest sp)
                    (<[get_algorithm_name c := length (parsers st)]>
                       (_name_parser_map sp))))]> (parsers st)
        ++ [snd (add_arguments c (subcommand_parser (prog G) c))]) st).
Proof.
  intros Hg Hsp.
  assert (Hlt : g < length (parsers st)) by (eapply lookup_lt_Some; eauto).
  unfold add_algorithm.
  rewrite (bind_Ret _ _ _ _ _ (add_parser_exec _ _ _ _ _ Hg Hsp)).
  set (G1 := mkParser (prog G) _ _ _).
  set (child := new_parser _).
  assert (H1 : parsers (set_parsers (<[g:=G1]> (parsers st ++ [child])) st)
               !! length (parsers st) = Some child).
  { rewrite parsers_set_parsers, list_lookup_insert_ne by lia.
    apply list_lookup_middle. reflexivity. }
  rewrite (bind_Ret _ _ _ _ _ (set_defaults_exec _ _ _ _ _ H1)).
  rewrite set_parsers_twice, parsers_set_parsers.
  set (child' := mkParser (prog child) _ _ _).
  assert (H2 : parsers (set_parsers
                 (<[length (parsers st) := child']>
                    (<[g:=G1]> (parsers st ++ [child]))) st)
               !! length (parsers st) = Some child').
  { rewrite parsers_set_parsers. apply list_lookup_insert_eq.
    rewrite length_insert, length_app. simpl. lia. }
  rewrite (call_add_arguments_exec _ _ _ _ H2).
  change child' with (subcommand_parser (prog G) c).
  rewrite parsers_set_parsers, set_parsers_twice.
  rewrite list_insert_insert_eq, insert_app_l by exact Hlt.
  rewrite insert_app_r_alt by (rewrite length_insert; lia).
  rewrite length_insert, Nat.sub_diag. reflexivity.
Qed.

(** The loop of [add_to_parser] over the classes [cs]: it touches the store
    of parsers only, where it adds one parser for each class, in order, and
    enters each under the name of its class in the dictionary of the group. *)
Lemma for_each_add_algorithm g cs : forall (st st' : State) G sp,
  parsers st !! g = Some G ->
  _subparsers G = Some sp ->
  for_each cs (add_algorithm g) st = (Ret tt, st') ->
  exists sp',
    st' = set_parsers (parsers st') st /\
    length (parsers st') = length (parsers st) + length cs /\
    parsers st' !! g
      = Some (mkParser (prog G) (_actions G) (_defaults G) (Some sp')) /\
    sp_dest sp' = sp_dest sp /\
    (forall n, n ∉ get_algorithm_name <$> cs ->
               _name_parser_map sp' !! n = _name_parser_map sp !! n) /\
    dom (_name_parser_map sp')
      = dom (_name_parser_map sp) ∪ list_to_set (get_algorithm_name <$> cs) /\
    (forall l, l < length (parsers st) -> l <> g ->
               parsers st' !! l = parsers st !! l) /\
    (NoDup (get_algorithm_name <$> cs) ->
     forall i c, cs !! i = Some c ->
       _name_parser_map sp' !! get_algorithm_name c
         = Some (length (parsers st) + i) /\
       exists q,
         parsers st' !! (length (parsers st) + i) = Some q /\
         add_arguments c (subcommand_parser (prog G) c) = (Ret tt, q)).
Proof.
  induction cs as [|c cs IH]; intros st st' G sp Hg Hsp Hrun.
  - injection Hrun as <-. exists sp.
    split; [destruct st; reflexivity|].
    split; [simpl; lia|].
    split; [rewrite Hg; destruct G; simpl in Hsp; subst; reflexivity|].
    split; [reflexivity|]. split; [reflexivity|].
    split; [simpl; rewrite (right_id_L ∅ (∪)); reflexivity|].
    split; [reflexivity|].
    intros _ i c Hi. inversion Hi.
  - assert (Hlt : g < length (parsers st)) by (eapply lookup_lt_Some; eauto).
    change (for_each (c :: cs) (add_algorithm g) st)
      with (bind (add_algorithm g c)
                 (fun _ => for_each cs (add_algorithm g)) st) in Hrun.
    apply bind_inv_Ret in Hrun as ([] & s1 & Hbody & Hrest).
    rewrite (add_algorithm_exec g G sp c st Hg Hsp) in Hbody.
    injection Hbody as Hr Hs1.
    set (G1 := mkParser (prog G) (_actions G) (_defaults G)
                 (Some (mkSubParsers (sp_dest sp)
                    (<[get_algorithm_name c := length (parsers st)]>
                       (_name_parser_map sp))))) in *.
    set (q := snd (add_arguments c (subcommand_parser (prog G) c))) in *.
    assert (Hh1 : parsers s1 = <[g := G1]> (parsers st) ++ [q])
      by (rewrite <- Hs1; reflexivity).
    assert (Hlen1 : length (parsers s1) = S (length (parsers st))).
    { rewrite Hh1, length_app, length_insert. simpl. lia. }
    assert (Hg1 : parsers s1 !! g = Some G1).
    { rewrite Hh1, lookup_app_l by (rewrite length_insert; exact Hlt).
      apply list_lookup_insert_eq. exact Hlt. }
    destruct (IH s1 st' G1 _ Hg1 eq_refl Hrest)
      as (sp' & Hfr & Hlen & Hg' & Hd & Hother & Hdom & Hold & Hnew).
    exists sp'.
    split; [rewrite Hfr, <- Hs1; reflexivity|].
    split; [rewrite Hlen, Hlen1; simpl; lia|].
    split; [exact Hg'|]. split; [exact Hd|].
    split.
    { intros n Hn. rewrite fmap_cons in Hn.
      apply not_elem_of_cons in Hn as [Hne Hn].
      rewrite (Hother n Hn). simpl. apply lookup_insert_ne. congruence. }
    split.
    { rewrite Hdom. simpl. rewrite dom_insert_L.
      rewrite (comm_L (∪) {[get_algorithm_name c]}).
      rewrite <- (assoc_L (∪)). reflexivity. }
    split.
    { intros l Hl Hne. rewrite Hold by (rewrite ?Hlen1; lia || exact Hne).
      rewrite Hh1, lookup_app_l by (rewrite length_insert; exact Hl).
      apply list_lookup_insert_ne. congruence. }
    intros Hnd i c0 Hi. rewrite fmap_cons in Hnd.
    apply NoDup_cons in Hnd as [Hfresh Hnd].
    destruct i as [|i]; simpl in Hi.
    + injection Hi as Hc. subst c0. rewrite Nat.add_0_r. split.
      * rewrite (Hother _ Hfresh). simpl. apply lookup_insert_eq.
      * exists q. split.
        -- rewrite Hold by (rewrite ?Hlen1; lia).
           rewrite Hh1. apply list_lookup_middle.
           rewrite length_insert. reflexivity.
        -- destruct (add_arguments c (subcommand_parser (prog G) c)) as [r q'].
           simpl in Hr. subst r. reflexivity.
    + destruct (Hnew Hnd i c0 Hi) as [Hname Hq].
      rewrite Hlen1 in Hname, Hq.
      replace (length (parsers st) + S i) with (S (length (parsers st)) + i)
        by lia.
      split; [exact Hname | exact Hq].
Qed.

Lemma add_argument_exec l p flags ty req (st : State) :
  parsers st !! l = Some p ->
  existsb (has_option p) flags = false ->
  ArgumentParser_add_argument l flags ty req st =
    (Ret tt,
     set_parsers
       (<[l := mkParser (prog p)
                 (_actions p ++ [mkAction Store flags (dest_of flags) ty req])
                 (_defaults p) (_subparsers p)]> (parsers st)) st).
Proof.
  intros Hp Hfree. unfold ArgumentParser_add_argument.
  rewrite (bind_Ret _ _ _ _ _ (deref_Some _ _ _ _ Hp)), Hfree. reflexivity.
Qed.

Lemma add_subparsers_exec l p d (st : State) :
  parsers st !! l = Some p ->
  _subparsers p = None ->
  ArgumentParser_add_subparsers l d st =
    (Ret l,
     set_parsers
       (<[l := mkParser (prog p) (_actions p) (_defaults p)
                 (Some (mkSubParsers d ∅))]> (parsers st)) st).
Proof.
  intros Hp Hnone. unfold ArgumentParser_add_subparsers.
  rewrite (bind_Ret _ _ _ _ _ (deref_Some _ _ _ _ Hp)), Hnone. reflexivity.
Qed.

Lemma snoc_lookup {A} (h : list A) x : (h ++ [x]) !! length h = Some x.
Proof. apply list_lookup_middle. reflexivity. Qed.

Lemma snoc_insert {A} (h : list A) x y :
  <[length h := y]> (h ++ [x]) = h ++ [y].
Proof.
  rewrite insert_app_r_alt by lia. rewrite Nat.sub_diag. reflexivity.
Qed.

(** The same calls on the parser that was allocated last. *)
Lemma add_argument_last h x flags ty req (st : State) :
  existsb (has_option x) flags = false ->
  ArgumentParser_add_argument (length h) flags ty req
      (set_parsers (h ++ [x]) st) =
    (Ret tt,
     set_parsers
       (h ++ [mkParser (prog x)
                (_actions x ++ [mkAction Store flags (dest_of flags) ty req])
                (_defaults x) (_subparsers x)]) st).
Proof.
  intros Hfree.
  rewrite (add_argument_exec (length h) x flags ty req
             (set_parsers (h ++ [x]) st) (snoc_lookup h x) Hfree).
  rewrite parsers_set_parsers, set_parsers_twice, snoc_insert. reflexivity.
Qed.

Lemma set_defaults_last h x name v (st : State) :
  ArgumentParser_set_defaults (length h) name v (set_parsers (h ++ [x]) st) =
    (Ret tt,
     set_parsers
       (h ++ [mkParser (prog x) (_actions x) (<[name := v]> (_defaults x))
                       (_subparsers x)]) st).
Proof.
  rewrite (set_defaults_exec (length h) x name v
             (set_parsers (h ++ [x]) st) (snoc_lookup h x)).
  rewrite parsers_set_parsers, set_parsers_twice, snoc_insert. reflexivity.
Qed.

Lemma add_subparsers_last h x d (st : State) :
  _subparsers x = None ->
  ArgumentParser_add_subparsers (length h) d (set_parsers (h ++ [x]) st) =
    (Ret (length h),
     set_parsers
       (h ++ [mkParser (prog x) (_actions x) (_defaults x)
                       (Some (mkSubParsers d ∅))]) st).
Proof.
  intros Hnone.
  rewrite (add_subparsers_exec (length h) x d
             (set_parsers (h ++ [x]) st) (snoc_lookup h x) Hnone).
  rewrite parsers_set_parsers, set_parsers_twice, snoc_insert. reflexivity.
Qed.

(** [add_to_parser] up to its loop: the group is a new parser, entered in
    the root's dictionary as [register]. *)
Lemma add_to_parser_exec root R rsp (st : State) :
  parsers st !! root = Some R ->
  _subparsers R = Some rsp ->
  add_to_parser root st =
    bind (for_each (values (default [] (_algorithm_to_class_map st)))
                   (add_algorithm (length (parsers st))))
         (fun _ => assign_register_group (length (parsers st)))
         (set_parsers
            (<[root := mkParser (prog R) (_actions R) (_defaults R)
                 (Some (mkSubParsers (sp_dest rsp)
                    (<["register" := length (parsers st)]>
                       (_name_parser_map rsp))))]> (parsers st)
             ++ [register_group_parser (prog R) ∅]) st).
Proof.
  intros HR Hrsp.
  assert (Hlt : root < length (parsers st)) by (eapply lookup_lt_Some; eauto).
  unfold add_to_parser.
  rewrite (bind_Ret _ _ _ _ _ (add_parser_exec _ _ _ _ _ HR Hrsp)).
  rewrite insert_app_l by exact Hlt.
  set (R1 := mkParser (prog R) _ _ _).
  set (h := <[root := R1]> (parsers st)).
  assert (Hlen : length (parsers st) = length h)
    by (unfold h; rewrite length_insert; reflexivity).
  rewrite Hlen.
  erewrite bind_Ret by (apply add_argument_last; reflexivity).
  erewrite bind_Ret by (apply add_argument_last; reflexivity).
  erewrite bind_Ret by (apply set_defaults_last).
  erewrite bind_Ret by (apply add_subparsers_last; reflexivity).
  reflexivity.
Qed.

Lemma add_parser_dangling owner name (st : State) :
  parsers st !! owner = None ->
  SubParsersAction_add_parser owner name st
    = (Raise (AttributeError "add_parser"), st).
Proof.
  intros Hp. unfold SubParsersAction_add_parser.
  apply bind_Raise. exact (deref_None _ _ _ Hp).
Qed.

Lemma add_parser_no_action owner p name (st : State) :
  parsers st !! owner = Some p ->
  _subparsers p = None ->
  SubParsersAction_add_parser owner name st
    = (Raise (AttributeError "add_parser"), st).
Proof.
  intros Hp Hnone. unfold SubParsersAction_add_parser.
  rewrite (bind_Ret _ _ _ _ _ (deref_Some _ _ _ _ Hp)), Hnone. reflexivity.
Qed.

(** [add_to_parser] that returns: the root parser had a sub-command action;
    the class attribute holds the new group, which has the two options,
    the entry point as a default and one sub-command for each class of the
    registry, each with a parser of its own in the store. *)
Lemma add_to_parser_Ret root (st st' : State) :
  add_to_parser root st = (Ret tt, st') ->
  exists R rsp names,
    parsers st !! root = Some R /\
    _subparsers R = Some rsp /\
    st' = set_register_group (length (parsers st))
            (set_parsers (parsers st') st) /\
    parsers st' !! length (parsers st)
      = Some (register_group_parser (prog R) names) /\
    parsers st' !! root
      = Some (mkParser (prog R) (_actions R) (_defaults R)
                (Some (mkSubParsers (sp_dest rsp)
                   (<["register" := length (parsers st)]>
                      (_name_parser_map rsp))))) /\
    dom names
      = list_to_set (get_algorithm_name <$>
                       values (default [] (_algorithm_to_class_map st))) /\
    (NoDup (get_algorithm_name <$>
              values (default [] (_algorithm_to_class_map st))) ->
     forall i c,
       values (default [] (_algorithm_to_class_map st)) !! i = Some c ->
       names !! get_algorithm_name c = Some (S (length (parsers st)) + i) /\
       exists q,
         parsers st' !! (S (length (parsers st)) + i) = Some q /\
         add_arguments c
           (subcommand_parser (prog R +:+ " " +:+ "register") c)
           = (Ret tt, q)).
Proof.
  intros Hrun.
  destruct (parsers st !! root) as [R|] eqn:HR.
  2:{ unfold add_to_parser in Hrun.
      rewrite (bind_Raise _ _ _ _ _ (add_parser_dangling _ _ _ HR)) in Hrun.
      discriminate Hrun. }
  destruct (_subparsers R) as [rsp|] eqn:Hrsp.
  2:{ unfold add_to_parser in Hrun.
      rewrite (bind_Raise _ _ _ _ _
                 (add_parser_no_action _ _ _ _ HR Hrsp)) in Hrun.
      discriminate Hrun. }
  assert (Hlt : root < length (parsers st)) by (eapply lookup_lt_Some; eauto).
  rewrite (add_to_parser_exec root R rsp st HR Hrsp) in Hrun.
  set (R1 := mkParser (prog R) (_actions R) (_defaults R) _) in *.
  set (cs := values (default [] (_algorithm_to_class_map st))) in *.
  apply bind_inv_Ret in Hrun as ([] & s6 & Hloop & Hassign).
  injection Hassign as <-.
  set (s5 := set_parsers _ st) in Hloop.
  assert (Hlen5 : length (parsers s5) = S (length (parsers st))).
  { unfold s5. rewrite parsers_set_parsers, length_app, length_insert.
    simpl. lia. }
  assert (Hg5 : parsers s5 !! length (parsers st)
                = Some (register_group_parser (prog R) ∅)).
  { unfold s5. rewrite parsers_set_parsers. apply list_lookup_middle.
    rewrite length_insert. reflexivity. }
  destruct (for_each_add_algorithm _ cs s5 s6 _ _ Hg5 eq_refl Hloop)
    as (sp' & Hfr & Hlen & Hg' & Hd & _ & Hdom & Hold & Hnew).
  exists R, rsp, (_name_parser_map sp').
  split; [reflexivity|]. split; [exact Hrsp|].
  split; [rewrite Hfr at 1; reflexivity|].
  split.
  { change (parsers (set_register_group (length (parsers st)) s6))
      with (parsers s6).
    rewrite Hg'. destruct sp' as [d names]. simpl in Hd. subst d.
    reflexivity. }
  split.
  { change (parsers (set_register_group (length (parsers st)) s6))
      with (parsers s6).
    rewrite Hold by (rewrite ?Hlen5; lia).
    unfold s5. rewrite parsers_set_parsers.
    rewrite lookup_app_l by (rewrite length_insert; exact Hlt).
    apply list_lookup_insert_eq. exact Hlt. }
  split.
  { rewrite Hdom. simpl. rewrite dom_empty_L. apply (left_id_L ∅ (∪)). }
  intros Hnd i c Hi. destruct (Hnew Hnd i c Hi) as [Hname Hq].
  rewrite Hlen5 in Hname, Hq. split; [exact Hname | exact Hq].
Qed.

Lemma set_parsers_id (st : State) : st = set_parsers (parsers st) st.
Proof. destruct st; reflexivity. Qed.

(** Whatever its outcome, the loop body changes the store of parsers only. *)
Lemma add_algorithm_frame g c (st st' : State) r :
  add_algorithm g c st = (r, st') -> st' = set_parsers (parsers st') st.
Proof.
  destruct (parsers st !! g) as [G|] eqn:Hg.
  - destruct (_subparsers G) as [sp|] eqn:Hsp.
    + rewrite (add_algorithm_exec g G sp c st Hg Hsp).
      intros [= _ <-]. reflexivity.
    + unfold add_algorithm.
      rewrite (bind_Raise _ _ _ _ _ (add_parser_no_action _ _ _ _ Hg Hsp)).
      intros [= _ <-]. apply set_parsers_id.
  - unfold add_algorithm.
    rewrite (bind_Raise _ _ _ _ _ (add_parser_dangling _ _ _ Hg)).
    intros [= _ <-]. apply set_parsers_id.
Qed.

Lemma for_each_frame g cs : forall (st st' : State) r,
  for_each cs (add_algorithm g) st = (r, st') ->
  st' = set_parsers (parsers st') st.
Proof.
  induction cs as [|c cs IH]; intros st st' r.
  - intros [= _ <-]. apply set_parsers_id.
  - change (for_each (c :: cs) (add_algorithm g) st)
      with (bind (add_algorithm g c)
                 (fun _ => for_each cs (add_algorithm g)) st).
    unfold bind. destruct (add_algorithm g c st) as [[u|e] s1] eqn:Hbody.
    + intros Hrest. apply IH in Hrest. apply add_algorithm_frame in Hbody.
      rewrite Hrest, Hbody. reflexivity.
    + intros [= _ <-]. exact (add_algorithm_frame _ _ _ _ _ Hbody).
Qed.

(** [add_to_parser] that raises has changed the store of parsers only: the
    class attribute is assigned by its last statement. *)
Lemma add_to_parser_Raise root (st st' : State) e :
  add_to_parser root st = (Raise e, st') ->
  st' = set_parsers (parsers st') st.
Proof.
  destruct (parsers st !! root) as [R|] eqn:HR.
  2:{ unfold add_to_parser.
      rewrite (bind_Raise _ _ _ _ _ (add_parser_dangling _ _ _ HR)).
      intros [= _ <-]. apply set_parsers_id. }
  destruct (_subparsers R) as [rsp|] eqn:Hrsp.
  2:{ unfold add_to_parser.
      rewrite (bind_Raise _ _ _ _ _ (add_parser_no_action _ _ _ _ HR Hrsp)).
      intros [= _ <-]. apply set_parsers_id. }
  rewrite (add_to_parser_exec root R rsp st HR Hrsp).
  unfold bind.
  match goal with
  | |- context [for_each ?cs ?body ?s5] =>
      destruct (for_each cs body s5) as [[u|e'] s6] eqn:Hloop
  end.
  - discriminate.
  - intros [= _ <-]. apply for_each_frame in Hloop.
    rewrite Hloop. reflexivity.
Qed.

(** C7: for every pair of a name and a class in the registry's map, the
    command group that [add_to_parser] builds has the name as the token of
    one sub-command, whose parser is an object of its own in the store,
    shared with no other token; that parser was created with the class as
    the default of the selection field, and it is the parser that the
    class's [add_arguments] was called on.  The group has no other
    sub-command. *)
Theorem add_to_parser_subcommands root (st st' : State)
    (ds : list ClassId) (m : Registry) :
  fst (algorithm_to_class_map st) = Ret m ->
  name_to_subtype_map ds = Ret m ->
  add_to_parser root st = (Ret tt, st') ->
  exists g G sp,
    register_group st' = Some g /\
    parsers st' !! g = Some G /\
    _subparsers G = Some sp /\
    sp_dest sp = "registration_algorithm_class" /\
    dom (_name_parser_map sp) = list_to_set m.*1 /\
    forall name c, (name, c) ∈ m ->
      name = get_algorithm_name c /\
      exists l q,
        _name_parser_map sp !! name = Some l /\
        l <> g /\
        parsers st' !! l = Some q /\
        add_arguments c (subcommand_parser (prog G) c) = (Ret tt, q) /\
        forall name' c',
          (name', c') ∈ m -> _name_parser_map sp !! name' = Some l ->
          name' = name.
Proof.
  intros Hm Hreg Hrun. injection Hm as Hm.
  destruct (name_to_subtype_map_ok ds m Hreg) as [Hok _].
  pose proof (registry_ok_names m Hok) as Hnames.
  destruct (add_to_parser_Ret root st st' Hrun)
    as (R & rsp & names & HR & Hrsp & Hst' & Hg & _ & Hdom & Hnew).
  rewrite Hm, Hnames in Hdom, Hnew.
  specialize (Hnew (proj1 Hok)).
  exists (length (parsers st)), (register_group_parser (prog R) names),
         (mkSubParsers "registration_algorithm_class" names).
  split; [rewrite Hst'; reflexivity|]. split; [exact Hg|].
  split; [reflexivity|]. split; [reflexivity|]. split; [exact Hdom|].
  intros name c Hin.
  assert (Hname : name = get_algorithm_name c) by (apply (proj2 Hok), Hin).
  split; [exact Hname|].
  apply list_elem_of_lookup in Hin as [i Hi].
  assert (Hci : values m !! i = Some c).
  { unfold values. rewrite list_lookup_fmap, Hi. reflexivity. }
  destruct (Hnew i c Hci) as [Hl (q & Hq & Hadd)].
  exists (S (length (parsers st)) + i), q.
  split; [rewrite Hname; exact Hl|]. split; [lia|].
  split; [exact Hq|]. split; [exact Hadd|].
  intros name' c' Hin' Hl'.
  assert (Hname' : name' = get_algorithm_name c') by (apply (proj2 Hok), Hin').
  apply list_elem_of_lookup in Hin' as [j Hj].
  assert (Hcj : values m !! j = Some c').
  { unfold values. rewrite list_lookup_fmap, Hj. reflexivity. }
  destruct (Hnew j c' Hcj) as [Hlj _].
  simpl in Hl'. rewrite Hname', Hlj in Hl'.
  assert (j = i) as -> by (injection Hl'; lia).
  congruence.
Qed.

(** C10: the help path of the dispatcher reads the class attribute
    [register_group].  Where the attribute was never assigned, a call with
    nothing selected, or with the help forced, ends with an attribute error
    and prints nothing.  [add_to_parser] assigns the attribute as its last
    statement: when it raises the attribute is as before, and when it has
    returned the same call prints the help and exits with status 2. *)
Theorem cli_help_needs_register_group (args : Namespace) (ph : bool)
    (v : Value) :
  args !! "registration_algorithm_class" = Some v ->
  v = VNone \/ ph = true ->
  (forall st : State,
     register_group st = None ->
     _cli args ph st = (Raise (AttributeError "register_group"), st)) /\
  (forall root (st st' : State) e,
     add_to_parser root st = (Raise e, st') ->
     register_group st' = register_group st) /\
  (forall root (st st' : State),
     add_to_parser root st = (Ret tt, st') ->
     register_group st' = Some (length (parsers st)) /\
     _cli args ph st' =
       (Raise (SystemExit 2),
        after [EvPrintHelp (length (parsers st));
               EvExit (length (parsers st)) 2] (world st') st')).
Proof.
  intros Hsel Hno.
  assert (Hb : is_None v || ph = true).
  { destruct Hno as [-> | ->]; [reflexivity | apply orb_true_r]. }
  split; [|split].
  - intros st Hg. exact (cli_no_selection_unset args ph v st Hsel Hb Hg).
  - intros root st st' e Hrun. apply add_to_parser_Raise in Hrun.
    rewrite Hrun. reflexivity.
  - intros root st st' Hrun.
    destruct (add_to_parser_Ret root st st' Hrun)
      as (R & rsp & names & _ & _ & Hst' & _).
    assert (Hg : register_group st' = Some (length (parsers st)))
      by (rewrite Hst'; reflexivity).
    split; [exact Hg|].
    exact (cli_no_selection_help args ph v _ st' Hsel Hb Hg).
Qed.


(** ** Parsing *)













(** ** More on the dispatcher *)

(** A discriminator that is neither [None] nor a class, with no help
    forced: the method [from_cli_args] is not found. *)
Lemma cli_not_a_class (args : Namespace) v (st : State) :
  args !! "registration_algorithm_class" = Some v ->
  is_None v = false ->
  (forall c, v <> VClass c) ->
  _cli args false st = (Raise (AttributeError "from_cli_args"), st).
Proof.
  intros Hsel Hnone Hcls. unfold _cli.
  rewrite (bind_Ret _ _ _ _ _ (getattr_Some _ _ _ _ Hsel)).
  rewrite Hnone. cbn [orb]. rewrite bind_ret_l.
  rewrite (bind_Ret _ _ _ _ _ (getattr_Some _ _ _ _ Hsel)).
  apply bind_Raise.
  destruct v; try reflexivity. exfalso. exact (Hcls c eq_refl).
Qed.

Lemma cli_no_discriminator (args : Namespace) ph (st : State) :
  args !! "registration_algorithm_class" = None ->
  _cli args ph st
    = (Raise (AttributeError "registration_algorithm_class"), st).
Proof.
  intros Hsel. unfold _cli. apply bind_Raise.
  exact (getattr_None _ _ _ Hsel).
Qed.

Lemma after_nil (st : State) : st = after [] (world st) st.
Proof. destruct st. unfold after. simpl. rewrite app_nil_r. reflexivity. Qed.

(** Whatever the arguments, the dispatcher leaves a state that differs from
    the one it found by the world and by the events added. *)
Lemma cli_effect (args : Namespace) ph (st : State) :
  exists t w, snd (_cli args ph st) = after t w st.
Proof.
  destruct (args !! "registration_algorithm_class") as [v|] eqn:Hsel.
  2:{ rewrite (cli_no_discriminator args ph st Hsel).
      exists [], (world st). apply after_nil. }
  destruct (is_None v || ph) eqn:Hno.
  { destruct (register_group st) as [g|] eqn:Hg.
    - rewrite (cli_no_selection_help args ph v g st Hsel Hno Hg).
      eexists _, _. reflexivity.
    - rewrite (cli_no_selection_unset args ph v st Hsel Hno Hg).
      exists [], (world st). apply after_nil. }
  apply orb_false_elim in Hno as [Hnone ->].
  destruct v as [|s|c|].
  - discriminate Hnone.
  - rewrite (cli_not_a_class args _ st Hsel Hnone) by discriminate.
    exists [], (world st). apply after_nil.
  - rewrite (cli_selected_unfold args c st Hsel).
    destruct (from_cli_args c args (world st)) as [[inst|e] w1]; reduce;
      [|eexists _, _; reflexivity].
    destruct (Stack_new w1) as [[s|e] w2]; reduce;
      [|eexists _, _; reflexivity].
    destruct (args !! "input") as [i|]; reduce; [|eexists _, _; reflexivity].
    destruct (Stack_read s i w2) as [[[]|e] w3]; reduce;
      [|eexists _, _; reflexivity].
    destruct (register inst s w3) as [[rv|e] w4]; reduce;
      [|eexists _, _; reflexivity].
    destruct (args !! "output") as [o|]; reduce; eexists _, _; reflexivity.
  - rewrite (cli_not_a_class args _ st Hsel Hnone) by discriminate.
    exists [], (world st). apply after_nil.
Qed.

(** X1: the dispatcher never touches the store of parsers, the classes,
    the class attribute [register_group] or the registry, and it only adds
    events to those that happened. *)
Theorem cli_frame (args : Namespace) (ph : bool) (st : State) :
  parsers (snd (_cli args ph st)) = parsers st /\
  classes (snd (_cli args ph st)) = classes st /\
  register_group (snd (_cli args ph st)) = register_group st /\
  _algorithm_to_class_map (snd (_cli args ph st))
    = _algorithm_to_class_map st /\
  trace st `prefix_of` trace (snd (_cli args ph st)).
Proof.
  destruct (cli_effect args ph st) as (t & w & ->).
  repeat (split; [reflexivity|]). exists t. reflexivity.
Qed.

(** X2: the dispatcher returns normally only when no help was forced, the
    discriminator is a class and the arguments have both paths; then all
    four steps were made. *)
Theorem cli_returns_only_after_sequence (args : Namespace) (ph : bool)
    (st : State) :
  fst (_cli args ph st) = Ret tt ->
  ph = false /\
  exists c i o t,
    args !! "registration_algorithm_class" = Some (VClass c) /\
    args !! "input" = Some i /\
    args !! "output" = Some o /\
    trace (snd (_cli args ph st)) = trace st ++ t /\
    steps t = [Construct; Load; Execute; Persist].
Proof.
  destruct (args !! "registration_algorithm_class") as [v|] eqn:Hsel.
  2:{ rewrite (cli_no_discriminator args ph st Hsel). discriminate. }
  destruct (is_None v || ph) eqn:Hno.
  { destruct (register_group st) as [g|] eqn:Hg.
    - rewrite (cli_no_selection_help args ph v g st Hsel Hno Hg). discriminate.
    - rewrite (cli_no_selection_unset args ph v st Hsel Hno Hg). discriminate. }
  apply orb_false_elim in Hno as [Hnone ->].
  destruct v as [|s|c|].
  - discriminate Hnone.
  - rewrite (cli_not_a_class args _ st Hsel Hnone) by discriminate.
    discriminate.
  - rewrite (cli_selected_unfold args c st Hsel).
    destruct (from_cli_args c args (world st)) as [[inst|e] w1]; reduce;
      [|discriminate].
    destruct (Stack_new w1) as [[s|e] w2]; reduce; [|discriminate].
    destruct (args !! "input") as [i|]; reduce; [|discriminate].
    destruct (Stack_read s i w2) as [[[]|e] w3]; reduce; [|discriminate].
    destruct (register inst s w3) as [[rv|e] w4]; reduce; [|discriminate].
    destruct (args !! "output") as [o|]; reduce; [|discriminate].
    intros _. split; [reflexivity|].
    exists c, i, o. eexists.
    split; [reflexivity|]. split; [reflexivity|]. split; [reflexivity|].
    split; reflexivity.
  - rewrite (cli_not_a_class args _ st Hsel Hnone) by discriminate.
    discriminate.
Qed.

(** X3: arguments without the discriminator end the dispatcher with an
    attribute error even when the help is forced, and a discriminator that
    is a string does so when it is asked for [from_cli_args]; in both cases
    nothing is printed and no collaborator is called. *)
Theorem cli_malformed_discriminator (args : Namespace) (st : State) :
  (forall ph,
     args !! "registration_algorithm_class" = None ->
     _cli args ph st
       = (Raise (AttributeError "registration_algorithm_class"), st)) /\
  (forall name,
     args !! "registration_algorithm_class" = Some (VStr name) ->
     _cli args false st = (Raise (AttributeError "from_cli_args"), st)).
Proof.
  split.
  - intros ph Hsel. exact (cli_no_discriminator args ph st Hsel).
  - intros name Hsel.
    apply (cli_not_a_class args (VStr name) st Hsel eq_refl). discriminate.
Qed.

(** X4: the paths are read from the arguments when they are needed.
    Without [input] the instance is constructed and the stack is created
    before the attribute error, and nothing is loaded; without [output] the
    stack is loaded and the algorithm has run before the attribute error,
    and nothing is written. *)
Theorem cli_missing_path (args : Namespace) (c : ClassId) (st : State) :
  args !! "registration_algorithm_class" = Some (VClass c) ->
  (forall inst w1 s w2,
     args !! "input" = None ->
     from_cli_args c args (world st) = (Ret inst, w1) ->
     Stack_new w1 = (Ret s, w2) ->
     _cli args false st =
       (Raise (AttributeError "input"),
        after [EvConstruct c; EvPrint "Registering ..."; EvStackNew] w2 st)) /\
  (forall inst w1 s w2 i w3 rv w4,
     args !! "input" = Some i ->
     args !! "output" = None ->
     from_cli_args c args (world st) = (Ret inst, w1) ->
     Stack_new w1 = (Ret s, w2) ->
     Stack_read s i w2 = (Ret tt, w3) ->
     register inst s w3 = (Ret rv, w4) ->
     _cli args false st =
       (Raise (AttributeError "output"),
        after [EvConstruct c; EvPrint "Registering ..."; EvStackNew;
               EvRead s i; EvRegister inst s] w4 st)).
Proof.
  intros Hsel. rewrite (cli_selected_unfold args c st Hsel). split.
  - intros inst w1 s w2 Hi Hc Hn.
    rewrite Hc; reduce. rewrite Hn; reduce. rewrite Hi. reflexivity.
  - intros inst w1 s w2 i w3 rv w4 Hi Ho Hc Hn Hr Hx.
    rewrite Hc; reduce. rewrite Hn; reduce. rewrite Hi; reduce.
    rewrite Hr; reduce. rewrite Hx; reduce. rewrite Ho. reflexivity.
Qed.

(** ** More on the construction of the command group *)






(** The store after [add_to_parser] that returns. *)
Lemma add_to_parser_store root (st st' : State) :
  add_to_parser root st = (Ret tt, st') ->
  length (parsers st')
    = S (length (parsers st))
      + length (values (default [] (_algorithm_to_class_map st))) /\
  (forall l, l < length (parsers st) -> l <> root ->
             parsers st' !! l = parsers st !! l).
Proof.
  intros Hrun.
  destruct (add_to_parser_Ret root st st' Hrun)
    as (R & rsp & names & HR & Hrsp & _).
  assert (Hlt : root < length (parsers st)) by (eapply lookup_lt_Some; eauto).
  rewrite (add_to_parser_exec root R rsp st HR Hrsp) in Hrun.
  apply bind_inv_Ret in Hrun as ([] & s6 & Hloop & Hassign).
  injection Hassign as <-.
  match type of Hloop with
  | for_each _ _ ?s = _ => set (s5 := s) in Hloop
  end.
  assert (Hlen5 : length (parsers s5) = S (length (parsers st))).
  { unfold s5. rewrite parsers_set_parsers, length_app, length_insert.
    simpl. lia. }
  assert (Hg5 : parsers s5 !! length (parsers st)
                = Some (register_group_parser (prog R) ∅)).
  { unfold s5. rewrite parsers_set_parsers. apply list_lookup_middle.
    rewrite length_insert. reflexivity. }
  destruct (for_each_add_algorithm _ _ s5 s6 _ _ Hg5 eq_refl Hloop)
    as (sp' & _ & Hlen & _ & _ & _ & _ & Hold & _).
  change (parsers (set_register_group (length (parsers st)) s6))
    with (parsers s6) in *.
  split; [rewrite Hlen, Hlen5; reflexivity|].
  intros l Hl Hne. rewrite Hold by (rewrite ?Hlen5; lia).
  unfold s5. rewrite parsers_set_parsers.
  rewrite lookup_app_l by (rewrite length_insert; exact Hl).
  apply list_lookup_insert_ne. congruence.
Qed.

(** X7: [add_to_parser] that returns has called no collaborator and has
    left the world, the classes and the registry as they were.  The store
    has one new parser for the group and one for each class of the
    registry; the parsers that were there are as they were, but for the
    root, which differs by its [register] entry only. *)
Theorem add_to_parser_frame root (st st' : State) :
  add_to_parser root st = (Ret tt, st') ->
  world st' = world st /\
  classes st' = classes st /\
  _algorithm_to_class_map st' = _algorithm_to_class_map st /\
  trace st' = trace st /\
  length (parsers st')
    = S (length (parsers st))
      + length (values (default [] (_algorithm_to_class_map st))) /\
  (forall l, l < length (parsers st) -> l <> root ->
             parsers st' !! l = parsers st !! l) /\
  exists R sp sp',
    parsers st !! root = Some R /\
    _subparsers R = Some sp /\
    parsers st' !! root
      = Some (mkParser (prog R) (_actions R) (_defaults R) (Some sp')) /\
    sp_dest sp' = sp_dest sp /\
    _name_parser_map sp' !! "register" = Some (length (parsers st)) /\
    forall name, name <> "register" ->
      _name_parser_map sp' !! name = _name_parser_map sp !! name.
Proof.
  intros Hrun.
  destruct (add_to_parser_Ret root st st' Hrun)
    as (R & rsp & names & HR & Hrsp & Hst' & _ & Hroot & _).
  destruct (add_to_parser_store root st st' Hrun) as [Hlen Hsame].
  split; [rewrite Hst'; reflexivity|]. split; [rewrite Hst'; reflexivity|].
  split; [rewrite Hst'; reflexivity|]. split; [rewrite Hst'; reflexivity|].
  split; [exact Hlen|]. split; [exact Hsame|].
  exists R, rsp, (mkSubParsers (sp_dest rsp)
                    (<["register" := length (parsers st)]>
                       (_name_parser_map rsp))).
  split; [exact HR|]. split; [exact Hrsp|]. split; [exact Hroot|].
  split; [reflexivity|]. split; [apply lookup_insert_eq|].
  intros name Hne. apply lookup_insert_ne. congruence.
Qed.



(** ** More on the discovery *)

(** X10: when every class has an identity of its own, the discovery
    returns no class twice. *)
Theorem implementing_algorithms_NoDup (st : State) :
  NoDup (cid <$> classes st) ->
  exists l, implementing_algorithms st = (Ret l, st) /\ NoDup l.
Proof.
  intros Hnd. eexists. split; [reflexivity|].
  unfold __subclasses__. apply (sublist_NoDup _ _ Hnd).
  apply fmap_sublist. apply sublist_filter.
Qed.

(** X11: the discovery follows the class statements: after one more class
    statement it returns what it returned before, followed by the new
    class when that class names [RegistrationAlgorithmBase] among its
    direct bases, and the same classes when it does not. *)
Theorem implementing_algorithms_new_class (st st' : State) (d : ClassDef) :
  classes st' = classes st ++ [d] ->
  exists l,
    fst (implementing_algorithms st) = Ret l /\
    fst (implementing_algorithms st') =
      Ret (if decide (RegistrationAlgorithmBase ∈ bases d)
           then l ++ [cid d] else l).
Proof.
  intros Hcls. eexists. split; [reflexivity|].
  unfold implementing_algorithms. cbn [fst]. rewrite Hcls.
  unfold __subclasses__. rewrite filter_app, fmap_app.
  rewrite filter_cons, filter_nil.
  destruct (decide (RegistrationAlgorithmBase ∈ bases d)).
  - reflexivity.
  - cbn [fmap list_fmap]. rewrite app_nil_r. reflexivity.
Qed.

(** X12: the group that [add_to_parser] leaves in the class attribute is
    named after the root parser, and its only default is the dispatcher as
    [starfish_command]: the classes are defaults of the sub-commands, not
    of the group, which has no default for the selection field. *)
Theorem add_to_parser_entry_point root (st st' : State) :
  add_to_parser root st = (Ret tt, st') ->
  exists g G R,
    register_group st' = Some g /\
    parsers st' !! g = Some G /\
    parsers st !! root = Some R /\
    prog G = prog R +:+ " " +:+ "register" /\
    _defaults G !! "starfish_command" = Some VCli /\
    forall name, name <> "starfish_command" -> _defaults G !! name = None.
Proof.
  intros Hrun.
  destruct (add_to_parser_Ret root st st' Hrun)
    as (R & rsp & names & HR & _ & Hst' & Hg & _).
  exists (length (parsers st)), (register_group_parser (prog R) names), R.
  split; [rewrite Hst'; reflexivity|]. split; [exact Hg|].
  split; [exact HR|]. split; [reflexivity|].
  split; [apply lookup_insert_eq|].
  intros name Hne. cbn [register_group_parser _defaults].
  rewrite lookup_insert_ne by congruence. apply lookup_empty.
Qed.

End Properties.

(** * The properties in the concrete world *)

Section Examples.

Import Concrete.

Local Abbreviation out := (VStr "/tmp/out").
Local Abbreviation inp := (VStr "/tmp/in").

(** [register -i /tmp/in -o /tmp/out fourier_shift]: the whole sequence. *)
Lemma happy_path_fourier_shift :
  exists w,
    _cli (args_for fourier_shift) false st0 =
      (Ret tt,
       after [EvConstruct fourier_shift; EvPrint "Registering ...";
              EvStackNew; EvRead 0 inp; EvRegister fourier_shift 0;
              EvWrite 0 out] w st0).
Proof.
  destruct (cli_selected_runs_sequence (args_for fourier_shift) fourier_shift
              st0 eq_refl) as [_ H].
  eexists.
  refine (proj1 (H inp out fourier_shift 0 None _ _ _ _ _
                   eq_refl eq_refl eq_refl eq_refl eq_refl eq_refl eq_refl)).
Defined.

(** No sub-command on the command line, after the group was built. *)
Lemma no_subcommand_exits_2 :
  process_status (fst (_cli args_none false st2)) = 2%Z.
Proof.
  refine (proj1 (proj2 (cli_usage_error args_none false VNone 1 st2
                          eq_refl (or_introl eq_refl) _))).
  vm_compute. reflexivity.
Defined.

(** A construction that fails, an input that cannot be read, a run that
    fails and an output that cannot be written. *)
Lemma failing_steps_surface :
  fst (_cli (args_for needs_flag) false st0) = Raise (Exception "ValueError") /\
  fst (_cli args_missing_input false st0) = Raise (Exception "IOError") /\
  fst (_cli (args_for refined_shift) false st0)
    = Raise (Exception "NotImplementedError") /\
  fst (_cli args_bad_output false st0) = Raise (Exception "TypeError").
Proof.
  split; [|split; [|split]].
  - destruct (cli_failure_propagates (args_for needs_flag) needs_flag st0
                eq_refl) as (H & _).
    rewrite (H (Exception "ValueError") (world st0) eq_refl). reflexivity.
  - destruct (cli_failure_propagates args_missing_input fourier_shift st0
                eq_refl) as (_ & _ & H & _).
    erewrite H; [reflexivity| reflexivity | reflexivity | reflexivity
                | reflexivity].
  - destruct (cli_failure_propagates (args_for refined_shift) refined_shift
                st0 eq_refl) as (_ & _ & _ & H & _).
    erewrite H; [reflexivity| reflexivity | reflexivity | reflexivity
                | reflexivity | reflexivity].
  - destruct (cli_failure_propagates args_bad_output fourier_shift st0
                eq_refl) as (_ & _ & _ & _ & H).
    erewrite H; [reflexivity| reflexivity | reflexivity | reflexivity
                | reflexivity | reflexivity | reflexivity | reflexivity].
Defined.

(** The algorithm that works in place: the file holds the shifted image. *)
Lemma in_place_result_written :
  files (world (snd (_cli (args_for fourier_shift) false st0))) !! "/tmp/out"
    = Some [2; 3; 4]%Z.
Proof.
  erewrite (cli_persists_loaded_container (args_for fourier_shift)
              fourier_shift st0 inp out fourier_shift 0 None);
    [| reflexivity | reflexivity | reflexivity | reflexivity | reflexivity
     | reflexivity | reflexivity].
  vm_compute. reflexivity.
Defined.

(** C5, as stated, fails for the algorithm that returns a new container:
    the file at the output path does not hold what the run returned. *)
Lemma cli_discards_returned_container :
  ~ (forall c i o inst s r w1 w2 w3 w4,
       args_for shifted_copy !! "registration_algorithm_class"
         = Some (VClass c) ->
       args_for shifted_copy !! "input" = Some i ->
       args_for shifted_copy !! "output" = Some (VStr o) ->
       from_cli_args c (args_for shifted_copy) (world st0) = (Ret inst, w1) ->
       Stack_new w1 = (Ret s, w2) ->
       Stack_read s i w2 = (Ret tt, w3) ->
       register inst s w3 = (Ret (Some r), w4) ->
       files (world (snd (_cli (args_for shifted_copy) false st0))) !! o
         = stacks w4 !! r).
Proof.
  intros H.
  specialize (H shifted_copy inp "/tmp/out" shifted_copy 0 1
                (mkWorld [] disk) (mkWorld [[]] disk)
                (mkWorld [[1; 2; 3]%Z] disk)
                (mkWorld [[1; 2; 3]%Z; [2; 3; 4]%Z] disk)
                eq_refl eq_refl eq_refl eq_refl eq_refl eq_refl eq_refl).
  vm_compute in H. discriminate H.
Qed.


(** Two classes under one name: the registry is not built. *)
Lemma duplicate_name_rejected :
  exists n, name_to_subtype_map [5; 6] = Raise (ConfigurationError n).
Proof.
  apply (proj2 (name_to_subtype_map_unique [5; 6]) 5 6).
  - repeat constructor.
  - repeat constructor.
  - discriminate.
  - reflexivity.
Defined.

(** The registry of the three classes of the class table is set up once. *)
Lemma registry_set_up_once :
  _algorithm_to_class_map
    (snd (bind _ensure_algorithms_setup
               (fun _ => _ensure_algorithms_setup) st0))
    = Some [("fourier_shift", fourier_shift); ("shifted_copy", shifted_copy)].
Proof.
  rewrite (proj1 (proj2 (proj2 (discovery_idempotent st0)))).
  vm_compute. reflexivity.
Defined.

Lemma st2_built : add_to_parser 0 st1 = (Ret tt, st2).
Proof. vm_compute. reflexivity. Qed.

(** The command group of the two discovered algorithms. *)
Lemma two_subcommands_built :
  exists g G sp,
    register_group st2 = Some g /\
    parsers st2 !! g = Some G /\
    _subparsers G = Some sp /\
    dom (_name_parser_map sp)
      = list_to_set ["fourier_shift"; "shifted_copy"].
Proof.
  assert (Hmap : fst (algorithm_to_class_map st1)
                 = Ret [("fourier_shift", fourier_shift);
                        ("shifted_copy", shifted_copy)])
    by (vm_compute; reflexivity).
  assert (Hreg : name_to_subtype_map [fourier_shift; shifted_copy]
                 = Ret [("fourier_shift", fourier_shift);
                        ("shifted_copy", shifted_copy)])
    by (vm_compute; reflexivity).
  destruct (add_to_parser_subcommands 0 st1 st2 _ _ Hmap Hreg st2_built)
    as (g & G & sp & Hg & HG & Hsp & _ & Hdom & _).
  exists g, G, sp. auto.
Defined.


(** The help path before and after the command group is built. *)
Lemma help_path_before_and_after :
  _cli args_none false st0 = (Raise (AttributeError "register_group"), st0) /\
  fst (_cli args_none false st2) = Raise (SystemExit 2).
Proof.
  destruct (cli_help_needs_register_group args_none false VNone
              eq_refl (or_introl eq_refl)) as (Hunset & _ & Hset).
  split.
  - apply Hunset. reflexivity.
  - destruct (Hset 0 st1 st2 st2_built) as [_ Hcli].
    rewrite Hcli. reflexivity.
Defined.

End Examples.

(** * More examples in the concrete world *)

Section MoreExamples.

Import Concrete.

(** The run of [fourier_shift] returned: it was selected, with both paths. *)
Lemma returned_run_was_selected :
  exists c i o,
    args_for fourier_shift !! "registration_algorithm_class"
      = Some (VClass c) /\
    args_for fourier_shift !! "input" = Some i /\
    args_for fourier_shift !! "output" = Some o.
Proof.
  assert (Hret : fst (_cli (args_for fourier_shift) false st0) = Ret tt)
    by (vm_compute; reflexivity).
  destruct (cli_returns_only_after_sequence _ _ _ Hret)
    as (_ & c & i & o & t & Hc & Hi & Ho & _).
  exists c, i, o. auto.
Defined.

(** No arguments at all, and the name of the sub-command in place of its
    class. *)
Lemma malformed_discriminators :
  fst (_cli ∅ true st0)
    = Raise (AttributeError "registration_algorithm_class") /\
  fst (_cli (<["registration_algorithm_class" := VStr "fourier_shift"]>
              (args_for fourier_shift)) false st0)
    = Raise (AttributeError "from_cli_args").
Proof.
  split.
  - rewrite (proj1 (cli_malformed_discriminator ∅ st0) true
               (lookup_empty _)).
    reflexivity.
  - erewrite (proj2 (cli_malformed_discriminator _ st0)); reflexivity.
Defined.

(** Arguments without their output: the algorithm has run, the file is as
    it was. *)
Lemma run_without_output :
  files (world (snd (_cli {[ "input" := VStr "/tmp/in";
                             "registration_algorithm_class"
                               := VClass fourier_shift ]}
                          false st0))) !! "/tmp/out" = Some []%Z.
Proof.
  assert (Hsel : ({[ "input" := VStr "/tmp/in";
                     "registration_algorithm_class" := VClass fourier_shift ]}
                  : Namespace) !! "registration_algorithm_class"
                 = Some (VClass fourier_shift)) by (vm_compute; reflexivity).
  assert (Hi : ({[ "input" := VStr "/tmp/in";
                   "registration_algorithm_class" := VClass fourier_shift ]}
                : Namespace) !! "input" = Some (VStr "/tmp/in"))
    by (vm_compute; reflexivity).
  assert (Ho : ({[ "input" := VStr "/tmp/in";
                   "registration_algorithm_class" := VClass fourier_shift ]}
                : Namespace) !! "output" = None)
    by (vm_compute; reflexivity).
  destruct (cli_missing_path _ fourier_shift st0 Hsel) as [_ H].
  rewrite (H fourier_shift (mkWorld [] disk) 0 (mkWorld [[]] disk)
             (VStr "/tmp/in") (mkWorld [[1; 2; 3]%Z] disk) None
             (mkWorld [[2; 3; 4]%Z] disk)
             Hi Ho eq_refl eq_refl eq_refl eq_refl).
  vm_compute. reflexivity.
Defined.


(** The store after the group is built: the root, the group and the two
    sub-commands. *)
Lemma store_after_build : length (parsers st2) = 4 /\ trace st2 = [].
Proof.
  destruct (add_to_parser_frame 0 st1 st2 st2_built)
    as (_ & _ & _ & Htr & Hlen & _).
  split; [rewrite Hlen | rewrite Htr]; reflexivity.
Defined.



(** The four classes of the class table have four identities. *)
Lemma discovered_once :
  exists l, implementing_algorithms st0 = (Ret l, st0) /\ NoDup l.
Proof.
  apply implementing_algorithms_NoDup.
  apply (bool_decide_unpack _). vm_compute. exact I.
Defined.

(** One more algorithm is defined after the import. *)
Lemma late_class_is_discovered :
  fst (implementing_algorithms
         (mkState (world st0) (parsers st0)
                  (classes st0 ++ [mkClass needs_flag
                                     [RegistrationAlgorithmBase] false])
                  None None [] : State World ClassId nat))
    = Ret [fourier_shift; shifted_copy; needs_flag].
Proof.
  destruct (implementing_algorithms_new_class st0
              (mkState (world st0) (parsers st0)
                 (classes st0 ++ [mkClass needs_flag
                                    [RegistrationAlgorithmBase] false])
                 None None [] : State World ClassId nat)
              (mkClass needs_flag [RegistrationAlgorithmBase] false) eq_refl)
    as (l & Hl & Hl').
  rewrite Hl'. injection Hl as <-. reflexivity.
Defined.

(** The group routes to the dispatcher. *)
Lemma group_routes_to_cli :
  exists G,
    parsers st2 !! 1 = Some G /\ _defaults G !! "starfish_command" = Some VCli.
Proof.
  destruct (add_to_parser_entry_point 0 st1 st2 st2_built)
    as (g & G & R & Hg & HG & _ & _ & Hd & _).
  assert (Hg1 : register_group st2 = Some 1) by (vm_compute; reflexivity).
  rewrite Hg1 in Hg. injection Hg as <-. exists G. auto.
Defined.

End MoreExamples.

Section ClashExample.

Import Concrete Clashing.
Local Existing Instance Clashing.algorithms.


End ClashExample.
